(** * Request signing and endpoint resolution of the Alibaba Cloud Python SDK

    A shallow embedding of
      - [alibabacloud/endpoint/location_service_endpoint_resolver.py]
        (class [LocationServiceEndpointResolver]) and
      - [alibabacloud/signer/composer.py] (classes [ROASigner], [RPCSigner]),
    followed by the properties of the specification that concern them.

    Conventions of the embedding.
      - A Python [str] is a [string] of bytes (its UTF-8 encoding); ordering
        of strings is byte-wise, which on UTF-8 coincides with Python's
        code-point order.  [lower]/[upper] act on the ASCII letters.
      - A Python [dict] whose iteration order is observable is an association
        list in insertion order ([Py.dict]); the endpoint cache, which is only
        looked up and stored into, is a [gmap]; Python [set]s are [gset]s.
      - Mutation of [self] and of the request is explicit state passing: a
        method takes the object and returns the object after the call.
      - Reads of the environment (clock, random nonce, the remote
        describe-endpoint service) are explicit inputs. *)

From Stdlib Require Import Ascii ZArith Lia Sorting.Sorted Sorting.Permutation.
From stdpp Require Import base gmap strings list fin_maps sorting.

#[local] Set Warnings "-register-all".

(** ** Python values and primitives used by the two modules *)

Module Py.

(** Values that cross the boundary of the resolver: what [json.loads]
    produces, with [PNone] for both JSON [null] and Python [None]. *)
Inductive pyval : Type :=
| PNone
| PBool (b : bool)
| PInt (n : Z)
| PStr (s : string)
| PList (l : list pyval)
| PDict (d : list (string * pyval)).

(** Python truth value, as tested by [if v], [not v] and [a or b]. *)
Definition truthy (v : pyval) : bool :=
  match v with
  | PNone => false
  | PBool b => b
  | PInt n => negb (Z.eqb n 0%Z)
  | PStr s => negb (String.eqb s "")
  | PList l => match l with [] => false | _ => true end
  | PDict d => match d with [] => false | _ => true end
  end.

(** [a or b] *)
Definition py_or (a b : pyval) : pyval := if truthy a then a else b.

(** [v == s] for a [str] s. *)
Definition eq_str (v : pyval) (s : string) : bool :=
  match v with
  | PStr s' => String.eqb s' s
  | _ => false
  end.

(** Truth value of an attribute that is [None] or a [str]. *)
Definition truthy_opt (o : option string) : bool :=
  match o with
  | Some s => negb (String.eqb s "")
  | None => false
  end.

(** [str(v)] for a value that is [None] or already a [str]. *)
Definition str (o : option string) : string :=
  match o with
  | Some s => s
  | None => "None"
  end.

(** *** Strings *)

Definition ascii_in (lo hi c : ascii) : bool :=
  (N.leb (N_of_ascii lo) (N_of_ascii c) && N.leb (N_of_ascii c) (N_of_ascii hi))%bool.

Definition lower_ascii (c : ascii) : ascii :=
  if ascii_in "A" "Z" c then ascii_of_N (N_of_ascii c + 32) else c.

Definition upper_ascii (c : ascii) : ascii :=
  if ascii_in "a" "z" c then ascii_of_N (N_of_ascii c - 32) else c.

Fixpoint smap (f : ascii -> ascii) (s : string) : string :=
  match s with
  | EmptyString => EmptyString
  | String c r => String (f c) (smap f r)
  end.

(** [s.lower()], [s.upper()] *)
Definition lower (s : string) : string := smap lower_ascii s.
Definition upper (s : string) : string := smap upper_ascii s.

(** [sep.join(parts)] *)
Fixpoint join (sep : string) (parts : list string) : string :=
  match parts with
  | [] => ""
  | [p] => p
  | p :: rest => p +:+ sep +:+ join sep rest
  end.

(** [s.startswith(p)] *)
Fixpoint startswith (p s : string) : bool :=
  match p, s with
  | EmptyString, _ => true
  | String a p', String b s' => (Ascii.eqb a b && startswith p' s')%bool
  | String _ _, EmptyString => false
  end.

(** [s.endswith(c)] for a one-character suffix. *)
Fixpoint endswith_char (c : ascii) (s : string) : bool :=
  match s with
  | EmptyString => false
  | String a EmptyString => Ascii.eqb a c
  | String _ r => endswith_char c r
  end.

(** [s[0:len(s) - 1]] *)
Fixpoint drop_last (s : string) : string :=
  match s with
  | EmptyString => EmptyString
  | String _ EmptyString => EmptyString
  | String a r => String a (drop_last r)
  end.

(** [s.find(sub) >= 0] *)
Fixpoint contains (sub s : string) : bool :=
  (startswith sub s ||
   match s with
   | EmptyString => false
   | String _ r => contains sub r
   end)%bool.

(** [s.replace(old, new)]: every non-overlapping occurrence, scanning from
    the left.  [skip] counts the characters of a matched occurrence that
    are still to be dropped.  (For an empty [old] Python inserts [new]
    around every character; the callers never pass one.) *)
Fixpoint replace_from (skip : nat) (old new s : string) : string :=
  match s with
  | EmptyString => EmptyString
  | String c r =>
      match skip with
      | S k => replace_from k old new r
      | O =>
          if startswith old s
          then new +:+ replace_from (String.length old - 1) old new r
          else String c (replace_from 0 old new r)
      end
  end.

Definition replace (old new s : string) : string :=
  match old with
  | EmptyString => s
  | _ => replace_from 0 old new s
  end.

(** [s.rsplit(c, 1)]: [(s, None)] when [c] does not occur, otherwise the
    text before the last [c] and the text after it. *)
Fixpoint rsplit1 (c : ascii) (s : string) : string * option string :=
  match s with
  | EmptyString => (EmptyString, None)
  | String a r =>
      match rsplit1 c r with
      | (h, Some t) => (String a h, Some t)
      | (_, None) =>
          if Ascii.eqb a c then (EmptyString, Some r) else (String a r, None)
      end
  end.

(** [s.split(c, 1)], the split at the first occurrence; only the
    specification speaks of it. *)
Fixpoint split1 (c : ascii) (s : string) : string * option string :=
  match s with
  | EmptyString => (EmptyString, None)
  | String a r =>
      if Ascii.eqb a c then (EmptyString, Some r)
      else match split1 c r with
           | (h, t) => (String a h, t)
           end
  end.

(** [c in s] for a character [c]. *)
Fixpoint occurs (c : ascii) (s : string) : Prop :=
  match s with
  | EmptyString => False
  | String a r => a = c \/ occurs c r
  end.

(** *** Dictionaries in insertion order *)

Definition dict (V : Type) : Type := list (string * V).

(** [d.get(k)] *)
Fixpoint dict_get {V} (d : dict V) (k : string) : option V :=
  match d with
  | [] => None
  | (k', v) :: r => if String.eqb k' k then Some v else dict_get r k
  end.

(** [d[k] = v]: an existing key keeps its position, a new key goes last. *)
Fixpoint dict_set {V} (k : string) (v : V) (d : dict V) : dict V :=
  match d with
  | [] => [(k, v)]
  | (k', v') :: r =>
      if String.eqb k' k then (k', v) :: r else (k', v') :: dict_set k v r
  end.

(** [d.update(other)] *)
Definition dict_update {V} (d other : dict V) : dict V :=
  fold_left (fun acc kv => dict_set (fst kv) (snd kv) acc) other d.

(** The value that the assignments [d[k] = v] for [(k, v)] in [other], in
    this order, leave under a key: that of the last assignment to it. *)
Fixpoint last_assigned {V} (other : dict V) (k : string) : option V :=
  match other with
  | [] => None
  | (k0, v0) :: r =>
      match last_assigned r k with
      | Some v => Some v
      | None => if String.eqb k0 k then Some v0 else None
      end
  end.

(** A well-formed Python dict has no repeated key. *)
Definition dict_wf {V} (d : dict V) : Prop := NoDup (map fst d).

(** [sorted(iteritems(d), key=lambda kv: kv[0])]: a stable sort on the
    key, by insertion; an item goes before the items to its right that have
    the same key. *)
Fixpoint insert_by_key {V} (kv : string * V) (l : list (string * V))
  : list (string * V) :=
  match l with
  | [] => [kv]
  | kv' :: r =>
      if String.ltb (fst kv') (fst kv) then kv' :: insert_by_key kv r
      else kv :: l
  end.

Definition sorted_items {V} (d : dict V) : list (string * V) :=
  fold_right (fun kv acc => insert_by_key kv acc) [] d.

(** Ascending order of the keys: [a] may come before [b]. *)
Definition key_le {V} (a b : string * V) : Prop :=
  String.ltb (fst b) (fst a) = false.

(** *** [urllib]: [quote], [quote_plus], [urlencode], [pathname2url]

    The signers import [urlencode] from [alibabacloud.compat] and
    [pathname2url] from the vendored [six]; both are the functions of
    Python's [urllib].  They are given here with the semantics of Python 3.7
    and later on POSIX, on the UTF-8 bytes of the text: the unreserved
    characters are the ASCII letters, the digits and [_.-~]; every other
    byte becomes [%XX] with upper-case hexadecimal digits. *)

Definition hex_digit (n : N) : ascii :=
  if N.ltb n 10 then ascii_of_N (48 + n) else ascii_of_N (55 + n).

Definition percent (c : ascii) : string :=
  String "%" (String (hex_digit (N.div (N_of_ascii c) 16))
               (String (hex_digit (N.modulo (N_of_ascii c) 16)) EmptyString)).

Definition always_safe (c : ascii) : bool :=
  (ascii_in "a" "z" c || ascii_in "A" "Z" c || ascii_in "0" "9" c
   || Ascii.eqb c "_" || Ascii.eqb c "." || Ascii.eqb c "-" || Ascii.eqb c "~")%bool.

(** [quote(s, safe)] with the extra safe characters given as a predicate. *)
Fixpoint quote_with (safe : ascii -> bool) (s : string) : string :=
  match s with
  | EmptyString => EmptyString
  | String c r =>
      (if (always_safe c || safe c)%bool then String c EmptyString else percent c)
      +:+ quote_with safe r
  end.

(** [quote(s)], whose default is [safe='/']. *)
Definition quote (s : string) : string :=
  quote_with (fun c => Ascii.eqb c "/") s.

(** [quote_plus(s)]: [quote(s, ' ')] with the spaces then turned into [+]. *)
Definition quote_plus (s : string) : string :=
  replace " " "+" (quote_with (fun c => Ascii.eqb c " ") s).

(** Modelled from the spec: [urlencode] of [alibabacloud.compat], which is
    not part of the two source files; section 4.1 has it encode the
    [key=value&key=value] string by "the standard form-encoding rules",
    those of [urllib]: each key and each [str(value)] through [quote_plus],
    joined as [k=v&k=v], for a dict or a list of pairs. *)
Definition urlencode (query : list (string * option string)) : string :=
  join "&" (map (fun kv => quote_plus (fst kv) +:+ "=" +:+ quote_plus (str (snd kv)))
                query).

(** Modelled from the spec: [pathname2url] of the vendored [six], which is
    not part of the two source files; section 4.1 has it percent-encode its
    argument "as if it were a URL path segment", which on POSIX is
    [quote(path)]. *)
Definition pathname2url (path : string) : string := quote path.

End Py.

(** Outcome of a call that may raise. *)
Inductive result (E A : Type) : Type :=
| Return (a : A)
| Raise (e : E).
Arguments Return {E A} a.
Arguments Raise {E A} e.

(** ** [alibabacloud/endpoint/location_service_endpoint_resolver.py] *)

Module Endpoint.
Import Py.

(** [alibabacloud.exceptions.ServerException]: the resolver reads its
    [error_code] and [error_message]; whatever else the exception carries
    is [detail]. *)
Record ServerException : Type := {
  error_code : string;
  error_message : string;
  detail : string
}.

(** What [_call_location_service] meets: a [ServerException], which it
    catches when [DescribeEndpointCaller.fetch] raises it, or any other
    exception, raised by [fetch] or by the reading of the response, which
    it does not catch. *)
Inductive exn : Type :=
| ServerExc (e : ServerException)
| OtherExc (name : string)
| TypeError.

(** The attributes of a request that the resolver reads. *)
Record Request : Type := {
  product_code : string;
  location_service_code : option string;
  region_id : string;
  endpoint_type : string
}.

(** Modelled from the spec: the attribute [product_code_lower] of the
    request class, which is not part of the two source files; section 3
    has the product code lower-cased wherever it is compared. *)
Definition product_code_lower (request : Request) : string :=
  lower (product_code request).

(** One entry of [body["Endpoints"]["Endpoint"]]. *)
Abbreviation item := (gmap string pyval).

(** [item.get(k)] *)
Definition item_get (it : item) (k : string) : pyval :=
  default PNone (it !! k).

(** The keyword arguments of [client_caller.fetch]. *)
Record FetchArgs : Type := {
  fa_region_id : string;
  fa_endpoint_type : string;
  fa_location_service_code : option string;
  fa_location_endpoint : string
}.

(** The outcome of [fetch]: an exception, or a response.  A response is
    given by what lines 103-115 make of its content.  [FetchOk] is a
    content that they read to the end: the list
    [json.loads(content)["Endpoints"]["Endpoint"]] of JSON objects that
    the loop walks through (what follows the entry at which the loop
    breaks is never looked at, and may be anything).  [FetchMalformed] is
    a content on which they raise [e] instead: bytes that are not UTF-8 or
    not JSON, a body without ["Endpoints"]["Endpoint"] or with something
    there that cannot be iterated, or an entry that is not an object and
    so has no [get], before any entry that the loop selects. *)
Inductive FetchResult : Type :=
| FetchOk (endpoints : list item)
| FetchMalformed (e : exn)
| FetchRaise (e : exn).

(** The calls made to the describe-endpoint service so far, oldest first. *)
Abbreviation World := (list FetchArgs).

(** The attributes of [LocationServiceEndpointResolver]; [endpoints_data]
    is the dict it inherits from [EndpointResolverBase]. *)
Record Resolver : Type := {
  endpoints_data : gmap string pyval;
  _location_service_endpoint : string;
  _invalid_product_codes : gset string;
  _invalid_region_ids : gset string;
  _valid_product_codes : gset string;
  _valid_region_ids : gset string
}.

Definition DEFAULT_LOCATION_SERVICE_ENDPOINT : string :=
  "location-readonly.aliyuncs.com".

(** [__init__] *)
Definition init : Resolver :=
  {| endpoints_data := ∅;
     _location_service_endpoint := DEFAULT_LOCATION_SERVICE_ENDPOINT;
     _invalid_product_codes := ∅;
     _invalid_region_ids := ∅;
     _valid_product_codes := ∅;
     _valid_region_ids := ∅ |}.

(** [set_location_service_endpoint] *)
Definition set_location_service_endpoint (endpoint : string) (st : Resolver)
  : Resolver :=
  {| endpoints_data := endpoints_data st;
     _location_service_endpoint := endpoint;
     _invalid_product_codes := _invalid_product_codes st;
     _invalid_region_ids := _invalid_region_ids st;
     _valid_product_codes := _valid_product_codes st;
     _valid_region_ids := _valid_region_ids st |}.

Definition with_endpoints_data (f : gmap string pyval -> gmap string pyval)
  (st : Resolver) : Resolver :=
  {| endpoints_data := f (endpoints_data st);
     _location_service_endpoint := _location_service_endpoint st;
     _invalid_product_codes := _invalid_product_codes st;
     _invalid_region_ids := _invalid_region_ids st;
     _valid_product_codes := _valid_product_codes st;
     _valid_region_ids := _valid_region_ids st |}.

Definition add_invalid_product_code (c : string) (st : Resolver) : Resolver :=
  {| endpoints_data := endpoints_data st;
     _location_service_endpoint := _location_service_endpoint st;
     _invalid_product_codes := {[c]} ∪ _invalid_product_codes st;
     _invalid_region_ids := _invalid_region_ids st;
     _valid_product_codes := _valid_product_codes st;
     _valid_region_ids := _valid_region_ids st |}.

Definition add_invalid_region_id (r : string) (st : Resolver) : Resolver :=
  {| endpoints_data := endpoints_data st;
     _location_service_endpoint := _location_service_endpoint st;
     _invalid_product_codes := _invalid_product_codes st;
     _invalid_region_ids := {[r]} ∪ _invalid_region_ids st;
     _valid_product_codes := _valid_product_codes st;
     _valid_region_ids := _valid_region_ids st |}.

Definition add_valid (c r : string) (st : Resolver) : Resolver :=
  {| endpoints_data := endpoints_data st;
     _location_service_endpoint := _location_service_endpoint st;
     _invalid_product_codes := _invalid_product_codes st;
     _invalid_region_ids := _invalid_region_ids st;
     _valid_product_codes := {[c]} ∪ _valid_product_codes st;
     _valid_region_ids := {[r]} ∪ _valid_region_ids st |}.

(** Modelled from the spec: [put_endpoint_entry] of the base class
    [EndpointResolverBase], which is not part of the two source files;
    section 4.5 describes it as [store(key, endpoint|null)] on a plain
    in-memory map without eviction. *)
Definition put_endpoint_entry (key : string) (v : pyval) (st : Resolver)
  : Resolver :=
  with_endpoints_data (fun m => <[key := v]> m) st.

(** [_make_endpoint_entry_key] *)
Definition _make_endpoint_entry_key
  (product_code location_service_code region_id endpoint_type : string)
  : string :=
  join "." [lower product_code; location_service_code;
            lower region_id; endpoint_type].

(** [get_endpoint_key_from_request]; joining a [None] raises. *)
Definition get_endpoint_key_from_request (request : Request)
  : result exn string :=
  match location_service_code request with
  | Some lsc =>
      Return (_make_endpoint_entry_key (product_code request) lsc
                (region_id request) (endpoint_type request))
  | None => Raise TypeError
  end.

(** The two rejections that [_call_location_service] recognises. *)
Definition is_invalid_region (e : ServerException) : bool :=
  (String.eqb "InvalidRegionId" (error_code e)
   && String.eqb "The specified region does not exist." (error_message e))%bool.

Definition is_illegal_parameter (e : ServerException) : bool :=
  (String.eqb "Illegal Parameter" (error_code e)
   && String.eqb "Please check the parameters" (error_message e))%bool.

(** The test of the loop body of [_call_location_service]. *)
Definition item_selected (endpoint_type : string) (it : item) : bool :=
  let service_code :=
    py_or (item_get it "ServiceCode") (item_get it "SerivceCode") in
  (truthy service_code && eq_str (item_get it "Type") endpoint_type)%bool.

(** The [for] loop of [_call_location_service] with its [break]: the
    final [found_flag] and the resolver after the loop. *)
Fixpoint scan_endpoints (key endpoint_type : string) (items : list item)
  (st : Resolver) : bool * Resolver :=
  match items with
  | [] => (false, st)
  | it :: rest =>
      if item_selected endpoint_type it
      then (true, put_endpoint_entry key (item_get it "Endpoint") st)
      else scan_endpoints key endpoint_type rest st
  end.

(** The arguments [_call_location_service] passes to [fetch]. *)
Definition fetch_args (st : Resolver) (raw_request : Request) : FetchArgs :=
  {| fa_region_id := region_id raw_request;
     fa_endpoint_type := endpoint_type raw_request;
     fa_location_service_code := location_service_code raw_request;
     fa_location_endpoint := _location_service_endpoint st |}.

Section WithService.

(** The describe-endpoint service: the answer to a call may depend on
    the calls made before it. *)
Variable fetch : World -> FetchArgs -> FetchResult.

(** [_call_location_service] *)
Definition _call_location_service (st : Resolver) (w : World)
  (key : string) (raw_request : Request)
  : result exn unit * Resolver * World :=
  let args := fetch_args st raw_request in
  let w' := w ++ [args] in
  match fetch w args with
  | FetchRaise (ServerExc e) =>
      if is_invalid_region e then
        (Return tt,
         put_endpoint_entry key PNone
           (add_invalid_region_id (region_id raw_request) st), w')
      else if is_illegal_parameter e then
        (Return tt,
         put_endpoint_entry key PNone
           (add_invalid_product_code (product_code_lower raw_request) st), w')
      else (Raise (ServerExc e), st, w')
  | FetchRaise e => (Raise e, st, w')
  | FetchMalformed e =>
      (Raise e,
       add_valid (product_code_lower raw_request) (region_id raw_request) st,
       w')
  | FetchOk endpoints =>
      let st1 :=
        add_valid (product_code_lower raw_request) (region_id raw_request) st in
      let '(found_flag, st2) :=
        scan_endpoints key (endpoint_type raw_request) endpoints st1 in
      if negb found_flag
      then (Return tt, put_endpoint_entry key PNone st2, w')
      else (Return tt, st2, w')
  end.

(** [_get_endpoint_from_location_service] *)
Definition _get_endpoint_from_location_service (st : Resolver) (w : World)
  (key : string) (request : Request)
  : result exn pyval * Resolver * World :=
  match endpoints_data st !! key with
  | Some v => (Return v, st, w)
  | None =>
      match _call_location_service st w key request with
      | (Raise e, st', w') => (Raise e, st', w')
      | (Return _, st', w') =>
          (Return (default PNone (endpoints_data st' !! key)), st', w')
      end
  end.

(** [resolve]; the lock it takes is created by the call itself and so
    excludes nobody. *)
Definition resolve (st : Resolver) (w : World) (request : Request)
  : result exn pyval * Resolver * World :=
  if negb (truthy_opt (location_service_code request)) then
    (Return PNone, st, w)
  else if decide (product_code_lower request ∈ _invalid_product_codes st) then
    (Return PNone, st, w)
  else if decide (region_id request ∈ _invalid_region_ids st) then
    (Return PNone, st, w)
  else
    match get_endpoint_key_from_request request with
    | Raise e => (Raise e, st, w)
    | Return key =>
        match endpoints_data st !! key with
        | Some v => (Return v, st, w)
        | None => _get_endpoint_from_location_service st w key request
        end
    end.

(** A caller that resolves one request after another on the same
    resolver, whatever each call returns or raises. *)
Fixpoint resolve_all (st : Resolver) (w : World) (requests : list Request)
  : Resolver * World :=
  match requests with
  | [] => (st, w)
  | request :: rest =>
      let '(_, st', w') := resolve st w request in
      resolve_all st' w' rest
  end.

End WithService.

(** [is_product_code_valid], [is_region_id_valid] *)
Definition is_product_code_valid (st : Resolver) (request : Request) : bool :=
  if truthy_opt (location_service_code request)
  then bool_decide (product_code_lower request ∉ _invalid_product_codes st)
  else false.

Definition is_region_id_valid (st : Resolver) (request : Request) : bool :=
  if truthy_opt (location_service_code request)
  then bool_decide (region_id request ∉ _invalid_region_ids st)
  else false.

End Endpoint.

(** ** [alibabacloud/signer/composer.py] *)

Module Composer.
Import Py.

Inductive exn : Type :=
| NoCredentialsException.

(** The attributes of the credentials that the signers read. *)
Record Credentials : Type := {
  access_key_id : option string;
  access_key_secret : string;
  security_token : option string;
  bearer_token : option string
}.

(** The signing algorithm ([alibabacloud.signer.algorithm], [ShaHmac1] by
    default): three descriptive strings and the keyed hash itself, which
    the signers use as a black box. *)
Record Algorithm : Type := {
  signer_name : string;
  signer_type : string;
  signer_version : string;
  sign_string : string -> string -> string
}.

(** The attributes of the API request that the signers read, and the one
    they write ([_query_params]).  Header values are strings; query and
    body parameters are strings or [None]. *)
Module Request.
Record t : Type := {
  method : string;
  uri_pattern : string;
  path_params : dict string;
  _query_params : dict (option string);
  _body_params : dict (option string);
  _headers : dict string;
  _content : option string;
  action_name : string
}.

Definition with_query_params (q : dict (option string)) (r : t) : t :=
  {| method := method r;
     uri_pattern := uri_pattern r;
     path_params := path_params r;
     _query_params := q;
     _body_params := _body_params r;
     _headers := _headers r;
     _content := _content r;
     action_name := action_name r |}.
End Request.

(** The line feed: the constant [HEADER_SEPARATOR] of the module, and the
    literal that [ROASigner] writes between the parts of its string. *)
Definition HEADER_SEPARATOR : string := String "010" EmptyString.

(** [ROASigner] *)
Module ROASigner.

Record t : Type := {
  credentials : Credentials;
  request : Request.t;
  region_id : string;
  version : string;
  signer : Algorithm;
  _headers : dict string;
  _uri : string
}.

Definition with_headers (h : dict string) (self : t) : t :=
  {| credentials := credentials self;
     request := request self;
     region_id := region_id self;
     version := version self;
     signer := signer self;
     _headers := h;
     _uri := _uri self |}.

Definition with_request (r : Request.t) (self : t) : t :=
  {| credentials := credentials self;
     request := r;
     region_id := region_id self;
     version := version self;
     signer := signer self;
     _headers := _headers self;
     _uri := _uri self |}.

(** [_replace_occupied_parameters] *)
Definition _replace_occupied_parameters (api_request : Request.t) : string :=
  fold_left
    (fun result kv => replace ("[" +:+ fst kv +:+ "]") (snd kv) result)
    (Request.path_params api_request)
    (Request.uri_pattern api_request).

(** [_build_canonical_headers] *)
Definition _build_canonical_headers (headers : dict string)
  (header_begin : string) : string :=
  let unsort_map :=
    fold_left
      (fun m kv =>
         if contains header_begin (lower (fst kv))
         then dict_set (lower (fst kv)) (snd kv) m
         else m)
      headers ([] : dict string) in
  let sort_map := sorted_items unsort_map in
  fold_left
    (fun result kv => (result +:+ fst kv +:+ ":" +:+ snd kv) +:+ HEADER_SEPARATOR)
    sort_map "".

(** One round of the loop of [_build_canonical_resource]. *)
Definition append_query (query_builder : string)
  (kv : string * option string) : string :=
  let query_builder := query_builder +:+ fst kv in
  let query_builder :=
    match snd kv with
    | Some v => (query_builder +:+ "=") +:+ v
    | None => query_builder
    end in
  query_builder +:+ "&".

(** [_build_canonical_resource]: the text it returns and [queries], the
    mapping it was passed, as the call leaves it. *)
Definition _build_canonical_resource (uri : string)
  (queries : dict (option string)) : string * dict (option string) :=
  let uri_parts := rsplit1 "?" uri in
  let queries :=
    match snd uri_parts with
    | Some fragment => dict_set fragment None queries
    | None => queries
    end in
  let query_builder := fst uri_parts in
  let sorted_map := sorted_items queries in
  let query_builder :=
    if Nat.ltb 0 (length sorted_map) then query_builder +:+ "?"
    else query_builder in
  let query_builder := fold_left append_query sorted_map query_builder in
  let query_builder :=
    if endswith_char "&" query_builder then drop_last query_builder
    else query_builder in
  (query_builder, queries).

Definition interesting_headers : list string :=
  ["Accept"; "Content-MD5"; "Content-Type"; "Date"].

Section WithHelpers.

(** [alibabacloud.utils.parameter_helper.md5_sum]: base64 text of the
    MD5 digest of the body. *)
Variable md5_sum : string -> string.

(** [FormatType.map_format_to_accept('JSON')] *)
Variable accept_json : string.

(** [_prepare_headers], on the arguments of the constructor. *)
Definition _prepare_headers (credentials : option Credentials)
  (api_request : Request.t) (region_id version : string)
  : result exn (dict string) :=
  match credentials with
  | None => Raise NoCredentialsException
  | Some c =>
      let headers := Request._headers api_request in
      let headers := dict_set "x-acs-version" version headers in
      let headers := dict_set "x-acs-region-id" region_id headers in
      let headers :=
        match Request._content api_request with
        | Some content => dict_set "Content-MD5" (md5_sum content) headers
        | None => headers
        end in
      let headers :=
        match security_token c with
        | Some token => dict_set "x-acs-security-token" token headers
        | None => headers
        end in
      let headers :=
        match bearer_token c with
        | Some token => dict_set "x-acs-bearer-token" token headers
        | None => headers
        end in
      Return headers
  end.

(** [__init__] *)
Definition init (credentials : option Credentials)
  (api_request : Request.t) (region_id version : string)
  (signer : Algorithm) : result exn t :=
  match _prepare_headers credentials api_request region_id version with
  | Raise e => Raise e
  | Return headers =>
      match credentials with
      | None => Raise NoCredentialsException
      | Some c =>
          Return {| credentials := c;
                    request := api_request;
                    region_id := region_id;
                    version := version;
                    signer := signer;
                    _headers := headers;
                    _uri := _replace_occupied_parameters api_request |}
      end
  end.

(** [_refresh_sign_parameters]; [date] is what
    [helper.get_rfc_2616_date()] reads from the clock.  The mapping it
    returns is [self._headers] itself, updated in place. *)
Definition _refresh_sign_parameters (self : t) (date : string)
  : dict string * t :=
  let parameters := _headers self in
  let parameters := dict_set "Date" date parameters in
  let parameters := dict_set "Accept" accept_json parameters in
  let parameters :=
    dict_set "x-acs-signature-method" (signer_name (signer self)) parameters in
  let parameters :=
    dict_set "x-acs-signature-version" (signer_version (signer self))
      parameters in
  (parameters, with_headers parameters self).

(** The property [signature]: the string to sign. *)
Definition signature (self : t) (date : string) : string * t :=
  let '(headers, self) := _refresh_sign_parameters self date in
  let sign_to_string := "" in
  let sign_to_string :=
    sign_to_string +:+ upper (Request.method (request self)) in
  let sign_to_string := sign_to_string +:+ HEADER_SEPARATOR in
  let sign_to_string :=
    fold_left
      (fun acc ih =>
         let acc :=
           match dict_get headers ih with
           | Some v => acc +:+ v
           | None => acc
           end in
         acc +:+ HEADER_SEPARATOR)
      interesting_headers sign_to_string in
  let sign_to_string :=
    sign_to_string +:+ _build_canonical_headers headers "x-acs-" in
  let '(resource, queries) :=
    _build_canonical_resource (_uri self)
      (Request._query_params (request self)) in
  (sign_to_string +:+ resource,
   with_request (Request.with_query_params queries (request self)) self).

(** The property [headers]. *)
Definition headers (self : t) (date : string) : dict string * t :=
  let '(sign_to_string, self) := signature self date in
  let signature :=
    sign_string (signer self) sign_to_string
      (access_key_secret (credentials self)) in
  let headers :=
    dict_set "Authorization"
      ((("acs " +:+ str (access_key_id (credentials self))) +:+ ":")
       +:+ signature)
      (_headers self) in
  (headers, with_headers headers self).

End WithHelpers.

(** The property [params]. *)
Definition params (self : t) : string :=
  let param := "" in
  let param := param +:+ _uri self in
  let param := if negb (endswith_char "?" param) then param +:+ "?" else param in
  let param := param +:+ urlencode (Request._query_params (request self)) in
  if endswith_char "?" param then drop_last param else param.

End ROASigner.

(** [RPCSigner] *)
Module RPCSigner.

Record t : Type := {
  credentials : Credentials;
  request : Request.t;
  region_id : string;
  version : string;
  signer : Algorithm;
  parameters : dict (option string)
}.

Definition with_parameters (p : dict (option string)) (self : t) : t :=
  {| credentials := credentials self;
     request := request self;
     region_id := region_id self;
     version := version self;
     signer := signer self;
     parameters := p |}.

(** [_pop_standard_urlencode] *)
Definition _pop_standard_urlencode (query : string) : string :=
  let ret := replace "+" "%20" query in
  let ret := replace "*" "%2A" ret in
  let ret := replace "%7E" "~" ret in
  ret.

(** [_calc_signature] *)
Definition _calc_signature (method : string)
  (params : dict (option string)) : string :=
  let sorted_parameters := sorted_items params in
  let sorted_query_string :=
    _pop_standard_urlencode (urlencode sorted_parameters) in
  let canonicalized_query_string :=
    _pop_standard_urlencode (pathname2url sorted_query_string) in
  let string_to_sign := (method +:+ "&%2F&") +:+ canonicalized_query_string in
  string_to_sign.

(** [_canonicalized_query_string], on the arguments of the constructor;
    [timestamp] is what [time.strftime(FORMAT_ISO_8601, time.gmtime())]
    reads from the clock and [nonce] what [helper.get_uuid()] draws. *)
Definition _canonicalized_query_string (credentials : option Credentials)
  (api_request : Request.t) (version : string) (signer : Algorithm)
  (timestamp nonce : string) : result exn (dict (option string)) :=
  match credentials with
  | None => Raise NoCredentialsException
  | Some c =>
      let parameters := Request._query_params api_request in
      let parameters := dict_set "Version" (Some version) parameters in
      let parameters :=
        dict_set "Action" (Some (Request.action_name api_request)) parameters in
      let parameters := dict_set "Format" (Some "JSON") parameters in
      let parameters := dict_set "Timestamp" (Some timestamp) parameters in
      let parameters :=
        dict_set "SignatureMethod" (Some (signer_name signer)) parameters in
      let parameters :=
        dict_set "SignatureType" (Some (signer_type signer)) parameters in
      let parameters :=
        dict_set "SignatureVersion" (Some (signer_version signer)) parameters in
      let parameters := dict_set "SignatureNonce" (Some nonce) parameters in
      let parameters :=
        match access_key_id c with
        | Some id => dict_set "AccessKeyId" (Some id) parameters
        | None => parameters
        end in
      Return parameters
  end.

(** [__init__] *)
Definition init (credentials : option Credentials)
  (api_request : Request.t) (region_id version : string)
  (signer : Algorithm) (timestamp nonce : string) : result exn t :=
  match
    _canonicalized_query_string credentials api_request version signer
      timestamp nonce
  with
  | Raise e => Raise e
  | Return parameters =>
      match credentials with
      | None => Raise NoCredentialsException
      | Some c =>
          Return {| credentials := c;
                    request := api_request;
                    region_id := region_id;
                    version := version;
                    signer := signer;
                    parameters := parameters |}
      end
  end.

(** The property [signature]: the string to sign.  [parameters] is
    [self.parameters] itself, updated in place. *)
Definition signature (self : t) : string * t :=
  let parameters := parameters self in
  let parameters :=
    dict_update parameters (Request._body_params (request self)) in
  let parameters :=
    match security_token (credentials self) with
    | Some token => dict_set "SecurityToken" (Some token) parameters
    | None => parameters
    end in
  let parameters :=
    match bearer_token (credentials self) with
    | Some token => dict_set "BearerToken" (Some token) parameters
    | None => parameters
    end in
  let signature :=
    _calc_signature (Request.method (request self)) parameters in
  (signature, with_parameters parameters self).

(** The property [params]. *)
Definition params (self : t) : string * t :=
  let '(string_to_sign, self) := signature self in
  let signature :=
    sign_string (signer self) string_to_sign
      (access_key_secret (credentials self) +:+ "&") in
  let parameters := dict_set "Signature" (Some signature) (parameters self) in
  let params := "?" +:+ urlencode parameters in
  (params, with_parameters parameters self).

(** The property [headers]. *)
Definition headers (self : t) : dict string :=
  Request._headers (request self).

End RPCSigner.

End Composer.

(** ** The canonical strings in the words of the specification *)

Module ComposerClaims.
Import Py Composer.

(** Section 4.1, RPC step 4: the three fixups, ["+"] to ["%20"], ["*"] to
    ["%2A"], ["%7E"] to ["~"]. *)
Definition spec_three_fixups (s : string) : string :=
  replace "%7E" "~" (replace "*" "%2A" (replace "+" "%20" s)).

(** Section 4.1, RPC steps 3 to 6: sort by key, form-encode, fix up,
    encode again as a path segment, fix up again, and prefix the method
    and ["&%2F&"]. *)
Definition spec_rpc_canonical_string (method : string)
  (merged : dict (option string)) : string :=
  method +:+ "&%2F&"
  +:+ spec_three_fixups
        (quote (spec_three_fixups (urlencode (sorted_items merged)))).

(** Section 4.1, ROA step 6: one parameter of the resource block. *)
Definition spec_emit_query (kv : string * option string) : string :=
  match snd kv with
  | Some v => fst kv +:+ "=" +:+ v
  | None => fst kv
  end.

(** Section 4.1, ROA step 6, for a given way of splitting the URI at a
    ["?"]: the resource block and the parameters after the fragment was
    folded in. *)
Definition spec_canonical_resource (split : string -> string * option string)
  (uri : string) (queries : dict (option string))
  : string * dict (option string) :=
  let '(path, fragment) := split uri in
  let queries :=
    match fragment with
    | Some f => dict_set f None queries
    | None => queries
    end in
  (match sorted_items queries with
   | [] => path
   | items => path +:+ "?" +:+ join "&" (map spec_emit_query items)
   end,
   queries).
(** Section 4.1, RPC step 2: what is merged in at signature time, the
    body parameters and then the tokens that are present. *)
Definition rpc_assignments (self : RPCSigner.t) : dict (option string) :=
  Request._body_params (RPCSigner.request self)
  ++ match security_token (RPCSigner.credentials self) with
     | Some token => [("SecurityToken", Some token)]
     | None => []
     end
  ++ match bearer_token (RPCSigner.credentials self) with
     | Some token => [("BearerToken", Some token)]
     | None => []
     end.

(** Section 4.1, ROA step 4: the upper-cased method and a line feed; the
    values of "Accept", "Content-MD5", "Content-Type" and "Date", each
    empty when the header is absent and each followed by a line feed; the
    canonical headers block and the canonical resource block. *)
Definition spec_roa_canonical_string (headers : dict string)
  (method uri : string) (queries : dict (option string)) : string :=
  upper method +:+ HEADER_SEPARATOR
  +:+ default "" (dict_get headers "Accept") +:+ HEADER_SEPARATOR
  +:+ default "" (dict_get headers "Content-MD5") +:+ HEADER_SEPARATOR
  +:+ default "" (dict_get headers "Content-Type") +:+ HEADER_SEPARATOR
  +:+ default "" (dict_get headers "Date") +:+ HEADER_SEPARATOR
  +:+ ROASigner._build_canonical_headers headers "x-acs-"
  +:+ fst (ROASigner._build_canonical_resource uri queries).
End ComposerClaims.

(** ** Sample inputs *)

Module EndpointSamples.
Import Py Endpoint.

Definition request_of (product service region : string) : Request :=
  {| product_code := product; location_service_code := Some service;
     region_id := region; endpoint_type := "openAPI" |}.

Definition req_ecs : Request := request_of "Ecs" "ecs" "cn-hangzhou".
Definition req_rds : Request := request_of "Rds" "rds" "cn-hangzhou".
Definition req_oss : Request := request_of "Oss" "oss" "cn-beijing".
Definition req_oss_upper : Request := request_of "OSS" "oss" "cn-shanghai".
Definition req_slb : Request := request_of "Slb" "slb" "cn-beijing".
Definition req_ram : Request := request_of "Ram" "ram" "cn-hangzhou".

Definition inner_item : item :=
  {[ "ServiceCode" := PStr "ecs"; "Type" := PStr "innerAPI";
     "Endpoint" := PStr "ecs-inner.aliyuncs.com" ]}.

(** An entry under the misspelt field only. *)
Definition ecs_item : item :=
  {[ "SerivceCode" := PStr "ecs"; "Type" := PStr "openAPI";
     "Endpoint" := PStr "ecs-cn-hangzhou.aliyuncs.com" ]}.

Definition later_item : item :=
  {[ "ServiceCode" := PStr "ecs"; "Type" := PStr "openAPI";
     "Endpoint" := PStr "ecs.aliyuncs.com" ]}.

(** An entry of the requested type whose service code is the empty
    string. *)
Definition blank_item : item :=
  {[ "ServiceCode" := PStr ""; "Type" := PStr "openAPI";
     "Endpoint" := PStr "ecs.aliyuncs.com" ]}.

Definition invalid_region_exc : ServerException :=
  {| error_code := "InvalidRegionId";
     error_message := "The specified region does not exist.";
     detail := "HTTP 404, RequestId 8F1A" |}.

Definition illegal_parameter_exc : ServerException :=
  {| error_code := "Illegal Parameter";
     error_message := "Please check the parameters";
     detail := "HTTP 400, RequestId 8F1B" |}.

Definition throttling_exc : ServerException :=
  {| error_code := "Throttling";
     error_message := "Request was denied due to request throttling.";
     detail := "HTTP 503, RequestId 8F1C" |}.

(** A stub of the service, keyed on the location-service code. *)
Definition stub_service (w : World) (args : FetchArgs) : FetchResult :=
  match fa_location_service_code args with
  | Some "ecs" => FetchOk [inner_item; ecs_item; later_item]
  | Some "rds" => FetchRaise (ServerExc invalid_region_exc)
  | Some "oss" => FetchRaise (ServerExc illegal_parameter_exc)
  | Some "slb" => FetchRaise (ServerExc throttling_exc)
  | Some "kms" => FetchOk [blank_item]
  | Some "ram" => FetchMalformed (OtherExc "KeyError")
  | _ => FetchRaise (OtherExc "ClientException")
  end.
End EndpointSamples.

Module ComposerSamples.
Import Py Composer.

(** A stand-in for the keyed hash that shows what was signed with which
    key. *)
Definition stub_algorithm : Algorithm :=
  {| signer_name := "HMAC-SHA1";
     signer_type := "";
     signer_version := "1.0";
     sign_string := fun source secret => "mac(" +:+ secret +:+ ";" +:+ source +:+ ")" |}.

Definition stub_md5_sum (content : string) : string := "md5(" +:+ content +:+ ")".

Definition application_json : string := "application/json".

Definition access_key : Credentials :=
  {| access_key_id := Some "AKID";
     access_key_secret := "secret";
     security_token := None;
     bearer_token := None |}.

Definition sts_key : Credentials :=
  {| access_key_id := Some "AKID";
     access_key_secret := "secret";
     security_token := Some "sts token";
     bearer_token := None |}.

Definition describe_regions : Request.t :=
  {| Request.method := "GET";
     Request.uri_pattern := "";
     Request.path_params := [];
     Request._query_params := [];
     Request._body_params := [];
     Request._headers := [];
     Request._content := None;
     Request.action_name := "DescribeRegions" |}.

Definition roa_request (uri_pattern : string)
  (query : dict (option string)) : Request.t :=
  {| Request.method := "get";
     Request.uri_pattern := uri_pattern;
     Request.path_params := [("ClusterId", "c-1")];
     Request._query_params := query;
     Request._body_params := [];
     Request._headers := [("Content-Type", "application/json"); ("X-Acs-Trace", "t1")];
     Request._content := None;
     Request.action_name := "DescribeCluster" |}.

Definition date1 : string := "Tue, 03 Nov 2026 10:00:00 GMT".
Definition date2 : string := "Tue, 03 Nov 2026 10:00:01 GMT".
Definition timestamp1 : string := "2026-11-03T10:00:00Z".
Definition nonce1 : string := "7f1c2f0e-0000-4000-8000-000000000001".
Definition nonce2 : string := "7f1c2f0e-0000-4000-8000-000000000002".

Definition rpc_signer (nonce : string) : result exn RPCSigner.t :=
  RPCSigner.init (Some access_key) describe_regions "cn-hangzhou" "2014-05-26"
    stub_algorithm timestamp1 nonce.

Definition roa_signer (uri_pattern : string) (query : dict (option string))
  : result exn ROASigner.t :=
  ROASigner.init stub_md5_sum (Some access_key) (roa_request uri_pattern query)
    "cn-hangzhou" "2015-12-15" stub_algorithm.

(** The object of a construction that succeeded. *)
Definition built {A} (dflt : A) (r : result exn A) : A :=
  match r with
  | Return a => a
  | Raise _ => dflt
  end.

Definition no_rpc_signer : RPCSigner.t :=
  {| RPCSigner.credentials := access_key;
     RPCSigner.request := describe_regions;
     RPCSigner.region_id := "";
     RPCSigner.version := "";
     RPCSigner.signer := stub_algorithm;
     RPCSigner.parameters := [] |}.

Definition no_roa_signer : ROASigner.t :=
  {| ROASigner.credentials := access_key;
     ROASigner.request := describe_regions;
     ROASigner.region_id := "";
     ROASigner.version := "";
     ROASigner.signer := stub_algorithm;
     ROASigner._headers := [];
     ROASigner._uri := "" |}.

(** A request with query and body parameters of its own. *)
Definition describe_instances : Request.t :=
  {| Request.method := "POST";
     Request.uri_pattern := "";
     Request.path_params := [];
     Request._query_params :=
       [("RegionId", Some "cn-hangzhou"); ("Action", Some "Forged");
        ("PageSize", Some "10")];
     Request._body_params :=
       [("PageSize", Some "50"); ("Tag", Some "a b")];
     Request._headers := [("Content-Type", "application/x-www-form-urlencoded")];
     Request._content := None;
     Request.action_name := "DescribeInstances" |}.

Definition rpc_signer_of (credentials : Credentials) (request : Request.t)
  : result exn RPCSigner.t :=
  RPCSigner.init (Some credentials) request "cn-hangzhou" "2014-05-26"
    stub_algorithm timestamp1 nonce1.

(** A request with a body and a header that nobody signs. *)
Definition put_object : Request.t :=
  {| Request.method := "put";
     Request.uri_pattern := "/buckets/[Bucket]/objects/[Key]";
     Request.path_params := [("Bucket", "b1"); ("Key", "k1")];
     Request._query_params := [];
     Request._body_params := [];
     Request._headers :=
       [("Accept", "text/plain"); ("x-acs-version", "1999-01-01");
        ("User-Agent", "sdk")];
     Request._content := Some "payload";
     Request.action_name := "PutObject" |}.
End ComposerSamples.

(** ** The Python primitives on samples *)

Module PyTests.
Import Py.

Example lower_sample : lower "CN-Hangzhou" = "cn-hangzhou".
Proof. reflexivity. Qed.

Example replace_sample : replace "%7E" "~" "a%7Eb%7E%7" = "a~b~%7".
Proof. reflexivity. Qed.

Example replace_overlap : replace "aa" "b" "aaaaa" = "bba".
Proof. reflexivity. Qed.

Example rsplit1_sample : rsplit1 "?" "/a?b?c" = ("/a?b", Some "c").
Proof. reflexivity. Qed.

Example rsplit1_absent : rsplit1 "?" "/a/b" = ("/a/b", None).
Proof. reflexivity. Qed.

Example split1_sample : split1 "?" "/a?b?c" = ("/a", Some "b?c").
Proof. reflexivity. Qed.

Example quote_plus_sample : quote_plus "a b*c~d/é" = "a+b%2Ac~d%2F%C3%A9".
Proof. reflexivity. Qed.

Example quote_sample : quote "a=b%20c/d&e" = "a%3Db%2520c/d%26e".
Proof. reflexivity. Qed.

Example urlencode_sample :
  urlencode [("Action", Some "DescribeRegions"); ("k", None)]
  = "Action=DescribeRegions&k=None".
Proof. reflexivity. Qed.

Example sorted_sample :
  sorted_items [("b", 1); ("a", 2); ("B", 3)] = [("B", 3); ("a", 2); ("b", 1)].
Proof. reflexivity. Qed.

Example sorted_stable :
  sorted_items [("b", 1); ("a", 2); ("b", 3); ("a", 4)]
  = [("a", 2); ("a", 4); ("b", 1); ("b", 3)].
Proof. reflexivity. Qed.

Example dict_set_sample :
  dict_set "a" 9 [("a", 1); ("b", 2)] = [("a", 9); ("b", 2)]
  /\ dict_set "c" 9 [("a", 1); ("b", 2)] = [("a", 1); ("b", 2); ("c", 9)].
Proof. split; reflexivity. Qed.
End PyTests.

(** ** Facts about the Python primitives *)

Module PyFacts.
Import Py.

#[local] Arguments String.append !_ _ / : simpl nomatch.

(** *** Strings *)

Lemma append_assoc (a b c : string) : (a +:+ b) +:+ c = a +:+ (b +:+ c).
Proof. induction a as [|x a IH]; simpl; [reflexivity | now rewrite IH]. Qed.

Lemma append_empty_r (a : string) : a +:+ "" = a.
Proof. induction a as [|x a IH]; simpl; [reflexivity | now rewrite IH]. Qed.

Lemma length_append (a b : string) :
  String.length (a +:+ b) = String.length a + String.length b.
Proof. induction a as [|x a IH]; simpl; [reflexivity | now rewrite IH]. Qed.

Lemma endswith_char_snoc c d (s : string) :
  endswith_char c (s +:+ String d "") = Ascii.eqb d c.
Proof.
  induction s as [|x s IH]; simpl; [reflexivity|].
  rewrite IH. destruct (s +:+ String d "") eqn:E; [|reflexivity].
  destruct s; discriminate E.
Qed.

Lemma drop_last_snoc d (s : string) : drop_last (s +:+ String d "") = s.
Proof.
  induction s as [|x s IH]; simpl; [reflexivity|].
  rewrite IH. destruct (s +:+ String d "") eqn:E; [|reflexivity].
  destruct s; discriminate E.
Qed.

Lemma drop_last_length (s : string) :
  String.length (drop_last s) <= String.length s.
Proof.
  induction s as [|x s IH]; simpl; [lia|].
  destruct s; simpl in *; lia.
Qed.

(** [rsplit1] cuts at the last occurrence of the separator. *)
Lemma rsplit1_spec c (s : string) :
  match rsplit1 c s with
  | (h, Some t) => s = h +:+ String c t /\ ~ occurs c t
  | (h, None) => h = s /\ ~ occurs c s
  end.
Proof.
  induction s as [|a r IH]; simpl; [tauto|].
  destruct (rsplit1 c r) as [h [t|]].
  - destruct IH as [-> Ht]. split; [reflexivity | exact Ht].
  - destruct IH as [_ Hr].
    destruct (Ascii.eqb_spec a c) as [->|Hne]; simpl.
    + split; [reflexivity | exact Hr].
    + split; [reflexivity | tauto].
Qed.

(** [split1] cuts at the first one. *)
Lemma split1_spec c (s : string) :
  match split1 c s with
  | (h, Some t) => s = h +:+ String c t /\ ~ occurs c h
  | (h, None) => h = s /\ ~ occurs c s
  end.
Proof.
  induction s as [|a r IH]; simpl; [tauto|].
  destruct (Ascii.eqb_spec a c) as [->|Hne]; simpl; [tauto|].
  destruct (split1 c r) as [h [t|]]; simpl.
  - destruct IH as [-> Hh]. split; [reflexivity | tauto].
  - destruct IH as [-> Hr]. split; [reflexivity | tauto].
Qed.

(** *** [join] *)

Lemma join_cons sep (a b : string) (l : list string) :
  join sep (a :: b :: l) = a +:+ sep +:+ join sep (b :: l).
Proof. reflexivity. Qed.

Lemma join_snoc sep (l : list string) (x : string) :
  join sep (l ++ [x])
  = match l with
    | [] => x
    | _ => join sep l +:+ sep +:+ x
    end.
Proof.
  induction l as [|a l IH]; [reflexivity|].
  destruct l as [|b l]; [reflexivity|].
  cbn [app] in *. rewrite join_cons, IH, join_cons.
  now rewrite !append_assoc.
Qed.

(** Appending [x +:+ sep] for every element and dropping the last
    separator is [join]. *)
Lemma concat_sep_join sep (l : list string) (acc : string) :
  l <> [] ->
  fold_left (fun a x => a +:+ (x +:+ sep)) l acc
  = acc +:+ join sep l +:+ sep.
Proof.
  revert acc. induction l as [|x l IH]; intros acc Hl; [congruence|].
  destruct l as [|y l].
  - simpl. reflexivity.
  - cbn [fold_left]. cbn [fold_left] in IH. rewrite IH by discriminate.
    rewrite join_cons. now rewrite !append_assoc.
Qed.

(** *** Dictionaries *)

Section Dict.
Context {V : Type}.
Implicit Types (d : dict V) (k : string) (v : V).

Lemma dict_get_set k v d k' :
  dict_get (dict_set k v d) k'
  = if String.eqb k k' then Some v else dict_get d k'.
Proof.
  induction d as [|[k0 v0] d IH]; simpl.
  - reflexivity.
  - destruct (String.eqb_spec k0 k) as [->|Hne]; simpl.
    + destruct (String.eqb k k'); reflexivity.
    + rewrite IH. destruct (String.eqb_spec k0 k') as [->|Hne'].
      * destruct (String.eqb_spec k k'); [congruence | reflexivity].
      * reflexivity.
Qed.

Lemma dict_get_In k d : dict_get d k <> None <-> In k (map fst d).
Proof.
  induction d as [|[k0 v0] d IH]; simpl; [tauto|].
  destruct (String.eqb_spec k0 k) as [->|Hne].
  - split; [auto | discriminate].
  - rewrite IH. split; [auto | intros [?|?]; [congruence | assumption]].
Qed.

(** Storing what is already there changes nothing. *)
Lemma dict_set_same k v d : dict_get d k = Some v -> dict_set k v d = d.
Proof.
  induction d as [|[k0 v0] d IH]; simpl; [discriminate|].
  destruct (String.eqb_spec k0 k) as [->|Hne].
  - now intros [= ->].
  - intros H. now rewrite IH.
Qed.

(** A new key goes last. *)
Lemma dict_set_absent k v d :
  dict_get d k = None -> dict_set k v d = d ++ [(k, v)].
Proof.
  induction d as [|[k0 v0] d IH]; simpl; [reflexivity|].
  destruct (String.eqb_spec k0 k) as [->|Hne]; [discriminate|].
  intros H. now rewrite IH.
Qed.

Lemma dict_set_keys k v d :
  map fst (dict_set k v d)
  = match dict_get d k with
    | Some _ => map fst d
    | None => map fst d ++ [k]
    end.
Proof.
  induction d as [|[k0 v0] d IH]; simpl; [reflexivity|].
  destruct (String.eqb_spec k0 k) as [->|Hne]; simpl; [reflexivity|].
  rewrite IH. destruct (dict_get d k); reflexivity.
Qed.

Lemma dict_set_wf k v d : dict_wf d -> dict_wf (dict_set k v d).
Proof.
  unfold dict_wf. intros H. rewrite dict_set_keys.
  destruct (dict_get d k) eqn:E; [exact H|].
  apply NoDup_app. split; [exact H|]. split.
  - intros x Hx Hk. apply list_elem_of_In in Hx.
    apply list_elem_of_In in Hk. destruct Hk as [->|[]].
    apply dict_get_In in Hx. congruence.
  - apply NoDup_singleton.
Qed.

Lemma dict_update_wf (other : dict V) d : dict_wf d -> dict_wf (dict_update d other).
Proof.
  unfold dict_update. revert d.
  induction other as [|[k v] other IH]; simpl; intros d H; [exact H|].
  apply IH, dict_set_wf, H.
Qed.

(** Two dicts with the same keys in the same order and the same value
    under every key are the same dict. *)
Lemma dict_ext d1 d2 :
  dict_wf d1 ->
  map fst d1 = map fst d2 ->
  (forall k, dict_get d1 k = dict_get d2 k) ->
  d1 = d2.
Proof.
  unfold dict_wf. revert d2.
  induction d1 as [|[k1 v1] d1 IH]; intros [|[k2 v2] d2] Hwf Hk Hg;
    try discriminate; [reflexivity|].
  simpl in Hk, Hwf. injection Hk as -> Hk.
  apply NoDup_cons in Hwf as [Hnin Hwf].
  pose proof (Hg k2) as H2. simpl in H2. rewrite String.eqb_refl in H2.
  injection H2 as ->. f_equal.
  apply IH; [exact Hwf | exact Hk |].
  intros k. specialize (Hg k). simpl in Hg.
  destruct (String.eqb_spec k2 k) as [->|Hne]; [|exact Hg].
  assert (N1 : dict_get d1 k = None).
  { destruct (dict_get d1 k) eqn:E; [|reflexivity].
    exfalso. apply Hnin. apply list_elem_of_In, dict_get_In. congruence. }
  assert (N2 : dict_get d2 k = None).
  { destruct (dict_get d2 k) eqn:E; [|reflexivity].
    exfalso. apply Hnin. rewrite Hk. apply list_elem_of_In, dict_get_In.
    congruence. }
  now rewrite N1, N2.
Qed.

Lemma dict_get_update (other : dict V) : forall d k,
  dict_get (dict_update d other) k
  = match last_assigned other k with
    | Some v => Some v
    | None => dict_get d k
    end.
Proof.
  unfold dict_update.
  induction other as [|[k0 v0] other IH]; simpl; intros d k; [reflexivity|].
  rewrite IH, dict_get_set.
  destruct (last_assigned other k); [reflexivity|].
  destruct (String.eqb k0 k); reflexivity.
Qed.

Lemma last_assigned_In (other : dict V) k :
  In k (map fst other) -> last_assigned other k <> None.
Proof.
  induction other as [|[k0 v0] other IH]; simpl; [tauto|].
  intros [->|H].
  - rewrite String.eqb_refl. destruct (last_assigned other k); discriminate.
  - specialize (IH H). destruct (last_assigned other k); [discriminate|tauto].
Qed.

(** Assigning to keys that are all present keeps the keys as they
    are. *)
Lemma dict_update_keys_present (other : dict V) : forall d,
  (forall k, In k (map fst other) -> dict_get d k <> None) ->
  map fst (dict_update d other) = map fst d.
Proof.
  unfold dict_update.
  induction other as [|[k0 v0] other IH]; simpl; intros d H; [reflexivity|].
  rewrite IH.
  - rewrite dict_set_keys. destruct (dict_get d k0) eqn:E; [reflexivity|].
    exfalso. apply (H k0); auto.
  - intros k Hk. rewrite dict_get_set.
    destruct (String.eqb k0 k); [discriminate | auto].
Qed.

(** [d.update(other)] twice is [d.update(other)] once. *)
Lemma dict_update_idempotent (other : dict V) d :
  dict_wf d ->
  dict_update (dict_update d other) other = dict_update d other.
Proof.
  intros Hwf. apply dict_ext.
  - now apply dict_update_wf, dict_update_wf.
  - apply dict_update_keys_present. intros k Hk.
    rewrite dict_get_update.
    pose proof (last_assigned_In other k Hk).
    destruct (last_assigned other k); [discriminate | tauto].
  - intros k. rewrite !dict_get_update.
    destruct (last_assigned other k); reflexivity.
Qed.

(** *** [sorted] *)

Lemma ltb_asym (a b : string) : String.ltb a b = true -> String.ltb b a = false.
Proof.
  unfold String.ltb. rewrite (String.compare_antisym b a).
  destruct (String.compare a b); simpl; congruence.
Qed.

Lemma insert_by_key_perm kv (l : list (string * V)) :
  Permutation (kv :: l) (insert_by_key kv l).
Proof.
  induction l as [|kv' l IH]; simpl; [reflexivity|].
  destruct (String.ltb (fst kv') (fst kv)); [|reflexivity].
  rewrite <- IH. apply perm_swap.
Qed.

Lemma insert_by_key_sorted kv (l : list (string * V)) :
  Sorted key_le l -> Sorted key_le (insert_by_key kv l).
Proof.
  intros H. induction H as [|kv' l Hl IH Hhd]; simpl.
  - repeat constructor.
  - destruct (String.ltb (fst kv') (fst kv)) eqn:E.
    + constructor; [exact IH|].
      destruct Hhd as [|b l Hb]; simpl.
      * constructor. unfold key_le. now apply ltb_asym.
      * destruct (String.ltb (fst b) (fst kv)); constructor;
          [assumption | unfold key_le; now apply ltb_asym].
    + constructor; [now constructor|]. constructor. exact E.
Qed.

(** [sorted_items] rearranges the items of the dict in ascending order
    of their keys. *)
Lemma sorted_items_perm d : Permutation d (sorted_items d).
Proof.
  induction d as [|kv d IH]; simpl; [reflexivity|].
  rewrite <- insert_by_key_perm. now constructor.
Qed.

Lemma sorted_items_sorted d : Sorted key_le (sorted_items d).
Proof.
  induction d as [|kv d IH]; simpl; [constructor|].
  now apply insert_by_key_sorted.
Qed.

Lemma sorted_items_nil d : sorted_items d = [] <-> d = [].
Proof.
  split; [|intros ->; reflexivity].
  intros H. pose proof (sorted_items_perm d) as P. rewrite H in P.
  now apply Permutation_nil_r in P.
Qed.

End Dict.
End PyFacts.

(** ** Further facts about the Python primitives *)

Module PyMoreFacts.
Import Py PyFacts.

#[local] Arguments String.append !_ _ / : simpl nomatch.

Lemma occurs_append c (a b : string) :
  occurs c (a +:+ b) <-> occurs c a \/ occurs c b.
Proof. induction a as [|x a IH]; simpl; [tauto | rewrite IH; tauto]. Qed.

(** [replace] brings in no character that is neither in the text nor in
    the replacement. *)
Lemma occurs_replace_from d old new : forall (s : string) skip,
  occurs d (replace_from skip old new s) -> occurs d new \/ occurs d s.
Proof.
  induction s as [|c s IH]; intros skip; cbn [replace_from]; [tauto|].
  destruct skip as [|k].
  - destruct (startswith old (String c s)).
    + rewrite occurs_append. intros [H|H]; [tauto|].
      apply IH in H. simpl. tauto.
    + simpl. intros [H|H]; [tauto|]. apply IH in H. tauto.
  - intros H. apply IH in H. simpl. tauto.
Qed.

Lemma occurs_replace d old new (s : string) :
  occurs d (replace old new s) -> occurs d new \/ occurs d s.
Proof.
  unfold replace. destruct old; [tauto|]. apply occurs_replace_from.
Qed.

(** Replacing a character leaves none of it, unless the replacement has
    it. *)
Lemma occurs_replace_char c new (s : string) :
  ~ occurs c new -> ~ occurs c (replace (String c "") new s).
Proof.
  intros Hn. unfold replace.
  induction s as [|a s IH]; cbn [replace_from]; [tauto|].
  cbn [startswith String.length Nat.sub].
  destruct (Ascii.eqb_spec c a) as [->|Hne]; cbn [andb].
  - destruct s; rewrite occurs_append; tauto.
  - destruct s; simpl in *; intros [H|H]; try congruence; tauto.
Qed.

(** The text before the first occurrence of the first character of [old]
    is copied as it is. *)
Lemma replace_from_prefix c o new (a s : string) :
  ~ occurs c a ->
  replace_from 0 (String c o) new (a +:+ s)
  = a +:+ replace_from 0 (String c o) new s.
Proof.
  induction a as [|x a IH]; intros Ha; [reflexivity|].
  simpl in Ha. cbn [String.append replace_from startswith].
  destruct (Ascii.eqb_spec c x) as [->|Hne]; [tauto|]. cbn [andb].
  rewrite IH by tauto. reflexivity.
Qed.

Lemma replace_from_skip old new (x s : string) :
  replace_from (String.length x) old new (x +:+ s) = replace_from 0 old new s.
Proof. induction x as [|c x IH]; [reflexivity | exact IH]. Qed.

Lemma startswith_append (p s : string) : startswith p (p +:+ s) = true.
Proof.
  induction p as [|c p IH]; [reflexivity|]. simpl.
  now rewrite Ascii.eqb_refl, IH.
Qed.

(** An occurrence at the head is replaced and the scan goes on after
    it. *)
Lemma replace_from_here c o new (s : string) :
  replace_from 0 (String c o) new (String c o +:+ s)
  = new +:+ replace_from 0 (String c o) new s.
Proof.
  cbn [String.append replace_from].
  change (String c (o +:+ s)) with (String c o +:+ s).
  rewrite startswith_append. cbn [String.length]. rewrite Nat.sub_1_r.
  cbn [Nat.pred]. now rewrite replace_from_skip.
Qed.

Lemma replace_from_absent c o new (s : string) :
  ~ occurs c s -> replace_from 0 (String c o) new s = s.
Proof.
  intros H. rewrite <- (append_empty_r s) at 1.
  rewrite replace_from_prefix by exact H. cbn. apply append_empty_r.
Qed.

(** *** The order on keys *)

Lemma key_le_leb {V} (a b : string * V) :
  key_le a b <-> String.le (fst a) (fst b).
Proof.
  unfold key_le, String.le, String.ltb, String.leb.
  rewrite (String.compare_antisym (fst a) (fst b)).
  destruct (String.compare (fst b) (fst a)); simpl; split; intros H;
    try reflexivity; try discriminate H; try exact I; contradiction.
Qed.

#[local] Instance key_le_transitive {V} : Transitive (@key_le V).
Proof.
  intros a b c. rewrite !key_le_leb. apply (@transitivity _ String.le _).
Qed.

(** Sorting forgets the order of insertion: two well-formed dicts with the
    same items have the same sorted items. *)
Lemma sorted_items_permutation {V} (d1 d2 : dict V) :
  dict_wf d1 -> Permutation d1 d2 -> sorted_items d1 = sorted_items d2.
Proof.
  intros Hwf Hp.
  apply (Sorted_unique_strong key_le).
  - intros x1 x2 H1 H2 L1 L2.
    assert (E : fst x1 = fst x2).
    { apply key_le_leb in L1, L2. apply (anti_symm String.le); assumption. }
    assert (I1 : x1 ∈ d1).
    { rewrite (sorted_items_perm d1). exact H1. }
    assert (I2 : x2 ∈ d1).
    { rewrite Hp, (sorted_items_perm d2). exact H2. }
    clear - Hwf E I1 I2. unfold dict_wf in Hwf.
    induction d1 as [|kv d IH]; [inversion I1|].
    simpl in Hwf. apply NoDup_cons in Hwf as [Hnin Hwf].
    apply elem_of_cons in I1 as [->|I1], I2 as [->|I2].
    + reflexivity.
    + exfalso. apply Hnin. rewrite E. now apply list_elem_of_fmap_2.
    + exfalso. apply Hnin. rewrite <- E. now apply list_elem_of_fmap_2.
    + now apply IH.
  - apply sorted_items_sorted.
  - apply sorted_items_sorted.
  - now rewrite <- (sorted_items_perm d1), <- (sorted_items_perm d2).
Qed.

(** Under unique keys the last assignment to a key is the only one. *)
Lemma last_assigned_wf {V} (d : dict V) k :
  dict_wf d -> last_assigned d k = dict_get d k.
Proof.
  unfold dict_wf. induction d as [|[k0 v0] d IH]; simpl; intros H; [reflexivity|].
  apply NoDup_cons in H as [Hnin H]. rewrite IH by exact H.
  destruct (String.eqb_spec k0 k) as [->|Hne].
  - destruct (dict_get d k) eqn:E; [|reflexivity].
    exfalso. apply Hnin. apply list_elem_of_In, dict_get_In. congruence.
  - destruct (dict_get d k); reflexivity.
Qed.

(** *** Percent-encoding *)

(** The characters of a percent-encoded byte. *)
Lemma hex_digits_safe c :
  (always_safe (hex_digit (N.div (N_of_ascii c) 16))
   && always_safe (hex_digit (N.modulo (N_of_ascii c) 16)))%bool = true.
Proof. destruct c as [[] [] [] [] [] [] [] []]; vm_compute; reflexivity. Qed.

Lemma occurs_percent d c :
  occurs d (percent c) -> d = "%"%char \/ always_safe d = true.
Proof.
  pose proof (hex_digits_safe c) as H. apply andb_true_iff in H as [H1 H2].
  unfold percent. intros [<-|[<-|[<-|[]]]]; auto.
Qed.

Lemma occurs_quote_with d safe (s : string) :
  occurs d (quote_with safe s) ->
  d = "%"%char \/ always_safe d = true \/ safe d = true.
Proof.
  induction s as [|c s IH]; cbn [quote_with]; [intros []|].
  rewrite occurs_append. intros [H|H]; [|auto].
  destruct (always_safe c || safe c)%bool eqn:E.
  - destruct H as [<-|[]]. apply orb_true_iff in E. tauto.
  - apply occurs_percent in H. tauto.
Qed.

(** [quote_plus] lets no ["?"] through. *)
Lemma quote_plus_no_question_mark (s : string) : ~ occurs "?" (quote_plus s).
Proof.
  unfold quote_plus. intros H. apply occurs_replace in H as [H|H].
  - destruct H as [H|[]]. discriminate H.
  - apply occurs_quote_with in H as [H|[H|H]]; discriminate H.
Qed.

Lemma endswith_char_after c e (z y : string) :
  ~ occurs c y -> e <> c -> endswith_char c (z +:+ String e y) = false.
Proof.
  intros Hy He.
  assert (B : forall (y : string) e, ~ occurs c y -> e <> c ->
                endswith_char c (String e y) = false).
  { clear. induction y as [|f y IH]; intros e Hy He.
    - simpl. now apply Ascii.eqb_neq.
    - simpl in Hy. change (endswith_char c (String e (String f y)))
        with (endswith_char c (String f y)).
      apply IH; [tauto | intros ->; tauto]. }
  induction z as [|x z IH]; cbn [String.append]; [now apply B|].
  destruct (z +:+ String e y) eqn:E; [destruct z; discriminate E|].
  exact IH.
Qed.

(** A non-empty form-encoded query ends with ["="] and an encoded value. *)
Lemma urlencode_nonempty (q : dict (option string)) :
  q <> [] ->
  exists z y : string, urlencode q = z +:+ String "=" y /\ ~ occurs "?" y.
Proof.
  unfold urlencode. induction q as [|kv q IH]; intros Hq; [congruence|].
  destruct q as [|kv' q].
  - exists (quote_plus (fst kv)), (quote_plus (str (snd kv))).
    split; [reflexivity | apply quote_plus_no_question_mark].
  - destruct IH as (z & y & E & Hy); [discriminate|].
    cbn [map] in *. rewrite join_cons, E.
    exists ((quote_plus (fst kv) +:+ "=" +:+ quote_plus (str (snd kv)))
            +:+ "&" +:+ z), y.
    split; [now rewrite !append_assoc | exact Hy].
Qed.

(** Replacing a single character goes character by character. *)
Lemma replace_char_cons c new a (s : string) :
  replace (String c "") new (String a s)
  = (if Ascii.eqb c a then new else String a "")
    +:+ replace (String c "") new s.
Proof.
  unfold replace. cbn [replace_from startswith String.length Nat.sub].
  destruct (Ascii.eqb c a); reflexivity.
Qed.

Lemma replace_char_append c new (a b : string) :
  replace (String c "") new (a +:+ b)
  = replace (String c "") new a +:+ replace (String c "") new b.
Proof.
  induction a as [|x a IH]; [reflexivity|].
  cbn [String.append]. rewrite !replace_char_cons, IH.
  now rewrite append_assoc.
Qed.

Lemma quote_plus_cons c (s : string) :
  quote_plus (String c s) = quote_plus (String c "") +:+ quote_plus s.
Proof.
  unfold quote_plus. cbn [quote_with].
  now rewrite append_empty_r, replace_char_append.
Qed.

(** What [quote_plus] makes of one character: the character itself when
    it is unreserved, and a text that starts with ["+"] or ["%"]
    otherwise. *)
Lemma quote_plus_head c :
  (always_safe c = true /\ quote_plus (String c "") = String c "")
  \/ (exists t, quote_plus (String c "") = String "+" t)
  \/ (exists t, quote_plus (String c "") = String "%" t).
Proof.
  unfold quote_plus. cbn [quote_with].
  destruct (always_safe c) eqn:Hs; cbn [orb].
  - left. split; [reflexivity|]. cbn [String.append].
    rewrite replace_char_cons.
    destruct (Ascii.eqb_spec " " c) as [<-|_]; [discriminate Hs | reflexivity].
  - destruct (Ascii.eqb_spec c " ") as [->|_].
    + right; left. eexists. reflexivity.
    + right; right. unfold percent. cbn [String.append].
      rewrite replace_char_cons. cbn. eexists. reflexivity.
Qed.

Lemma quote_plus_empty (s : string) : quote_plus s = "" -> s = "".
Proof.
  destruct s as [|c s]; [reflexivity|]. rewrite quote_plus_cons.
  destruct (quote_plus_head c) as [[_ ->]|[[t ->]|[t ->]]]; discriminate.
Qed.

(** An unreserved first character of the encoded text is the first
    character of the text. *)
Lemma quote_plus_safe_head a (t s : string) :
  a <> "+"%char -> a <> "%"%char ->
  quote_plus s = String a t ->
  exists r, s = String a r /\ quote_plus r = t.
Proof.
  intros Hp Hc. destruct s as [|c s]; [discriminate|].
  rewrite quote_plus_cons.
  destruct (quote_plus_head c) as [[_ ->]|[[u ->]|[u ->]]];
    cbn [String.append]; intros H; injection H as H1 H2.
  - subst a. eauto.
  - congruence.
  - congruence.
Qed.

(** Only [None] and the text ["None"] are form-encoded as ["None"]. *)
Lemma quote_plus_None (s : string) : quote_plus s = "None" -> s = "None".
Proof.
  intros H.
  apply quote_plus_safe_head in H as (s1 & -> & H); [|discriminate..].
  apply quote_plus_safe_head in H as (s2 & -> & H); [|discriminate..].
  apply quote_plus_safe_head in H as (s3 & -> & H); [|discriminate..].
  apply quote_plus_safe_head in H as (s4 & -> & H); [|discriminate..].
  now rewrite (quote_plus_empty _ H).
Qed.

Lemma append_cancel_r (a b t : string) : a +:+ t = b +:+ t -> a = b.
Proof.
  revert b. induction a as [|x a IH]; intros [|y b]; cbn [String.append];
    intros H.
  - reflexivity.
  - apply (f_equal String.length) in H. cbn [String.length] in H.
    rewrite length_append in H. lia.
  - apply (f_equal String.length) in H. cbn [String.length] in H.
    rewrite length_append in H. lia.
  - injection H as -> H. f_equal. now apply IH.
Qed.

Lemma append_cancel_l (a x y : string) : a +:+ x = a +:+ y -> x = y.
Proof.
  induction a as [|c a IH]; cbn [String.append]; intros H; [exact H|].
  injection H as H. now apply IH.
Qed.

Lemma urlencode_cons kv (q : dict (option string)) :
  urlencode (kv :: q)
  = (quote_plus (fst kv) +:+ "=" +:+ quote_plus (str (snd kv)))
    +:+ match q with
        | [] => ""
        | _ => "&" +:+ urlencode q
        end.
Proof.
  unfold urlencode. destruct q as [|kv' q]; cbn [map].
  - cbn [join]. now rewrite append_empty_r.
  - rewrite join_cons. now rewrite !append_assoc.
Qed.

Lemma dict_set_nonempty {V} k (v : V) (d : dict V) : dict_set k v d <> [].
Proof.
  destruct d as [|[k0 v0] d]; cbn [dict_set]; [discriminate|].
  destruct (String.eqb k0 k); discriminate.
Qed.

(** Storing [None] under a key that holds [None] or the text ["None"]
    leaves the form-encoded query as it was. *)
Lemma urlencode_set_none_same (q : dict (option string)) k v :
  dict_get q k = Some v -> str v = "None" ->
  urlencode (dict_set k None q) = urlencode q.
Proof.
  intros Hg Hv. induction q as [|[k0 v0] q IH]; [discriminate Hg|].
  cbn [dict_get dict_set] in *.
  destruct (String.eqb k0 k).
  - injection Hg as ->. rewrite !urlencode_cons. cbn [fst snd].
    now rewrite Hv.
  - specialize (IH Hg). rewrite !urlencode_cons, IH. cbn [fst snd].
    destruct q as [|kv q]; [discriminate Hg|].
    destruct (dict_set k None (kv :: q)) eqn:E; [|reflexivity].
    now apply dict_set_nonempty in E.
Qed.

(** Storing [None] under a key that holds any other text changes the
    form-encoded query. *)
Lemma urlencode_set_none_differs (q : dict (option string)) k v :
  dict_get q k = Some v -> str v <> "None" ->
  urlencode (dict_set k None q) <> urlencode q.
Proof.
  intros Hg Hv. induction q as [|[k0 v0] q IH]; [discriminate Hg|].
  cbn [dict_get dict_set] in *.
  destruct (String.eqb k0 k).
  - injection Hg as ->. rewrite !urlencode_cons. cbn [fst snd str].
    rewrite !append_assoc. intros H.
    apply append_cancel_l, append_cancel_l, append_cancel_r in H.
    apply Hv. apply quote_plus_None. now rewrite <- H.
  - specialize (IH Hg). rewrite !urlencode_cons. cbn [fst snd].
    intros H. apply append_cancel_l in H.
    destruct q as [|kv q]; [discriminate Hg|].
    destruct (dict_set k None (kv :: q)) eqn:E;
      [now apply dict_set_nonempty in E|].
    cbn [String.append] in H. injection H as H. now apply IH.
Qed.

End PyMoreFacts.

(** ** Properties of the endpoint resolver *)

Module EndpointFacts.
Import Py Endpoint.

Lemma put_endpoint_entry_lookup key v st :
  endpoints_data (put_endpoint_entry key v st) !! key = Some v.
Proof. unfold put_endpoint_entry; simpl. apply lookup_insert_eq. Qed.

Lemma put_endpoint_entry_invalid key v st :
  _invalid_region_ids (put_endpoint_entry key v st) = _invalid_region_ids st
  /\ _invalid_product_codes (put_endpoint_entry key v st)
     = _invalid_product_codes st.
Proof. split; reflexivity. Qed.

(** The loop stops at the first selected entry and stores its
    [Endpoint]. *)
Lemma scan_endpoints_found key t pre it post st :
  Forall (fun i => item_selected t i = false) pre ->
  item_selected t it = true ->
  scan_endpoints key t (pre ++ it :: post) st
  = (true, put_endpoint_entry key (item_get it "Endpoint") st).
Proof.
  intros Hpre Hit. induction Hpre as [|i pre Hi Hrest IH']; simpl.
  - now rewrite Hit.
  - now rewrite Hi.
Qed.

Lemma scan_endpoints_none key t items st :
  Forall (fun i => item_selected t i = false) items ->
  scan_endpoints key t items st = (false, st).
Proof.
  intros H. induction H as [|i items Hi Hrest IH']; simpl; [reflexivity|].
  now rewrite Hi.
Qed.

(** The loop touches the cache only. *)
Lemma scan_endpoints_frame key t items st :
  let st' := snd (scan_endpoints key t items st) in
  _invalid_region_ids st' = _invalid_region_ids st
  /\ _invalid_product_codes st' = _invalid_product_codes st
  /\ _location_service_endpoint st' = _location_service_endpoint st.
Proof.
  induction items as [|i items IH]; simpl; [auto|].
  destruct (item_selected t i); simpl; auto.
Qed.

Section WithService.
Variable fetch : World -> FetchArgs -> FetchResult.

(** Whatever the service answers, the call is logged and nothing is
    ever removed from the two invalid sets. *)
Lemma call_location_service_grows st w key request r st' w' :
  _call_location_service fetch st w key request = (r, st', w') ->
  w' = w ++ [fetch_args st request]
  /\ _invalid_region_ids st ⊆ _invalid_region_ids st'
  /\ _invalid_product_codes st ⊆ _invalid_product_codes st'.
Proof.
  unfold _call_location_service. intros H.
  destruct (fetch w (fetch_args st request)) as [eps|e|[e | n |]].
  - pose proof (scan_endpoints_frame key (endpoint_type request) eps
                  (add_valid (product_code_lower request) (region_id request) st))
      as (Hr & Hp & _).
    destruct (scan_endpoints _ _ _ _) as [found st2]; simpl in *.
    destruct found; simpl in H; inversion H; subst; simpl;
      rewrite ?Hr, ?Hp; auto.
  - inversion H; subst; auto.
  - destruct (is_invalid_region e); [|destruct (is_illegal_parameter e)];
      inversion H; subst; simpl; split; auto; split; set_solver.
  - inversion H; subst; auto.
  - inversion H; subst; auto.
Qed.

(** The two ways [resolve] can go: it answers from what the resolver
    already knows, calling nobody and changing nothing, or it passes all
    its guards, misses the cache and calls the service once. *)
Lemma resolve_inv st w request r st' w' :
  resolve fetch st w request = (r, st', w') ->
  (st' = st /\ w' = w /\ exists v, r = Return v)
  \/ (truthy_opt (location_service_code request) = true
      /\ (product_code_lower request ∉ _invalid_product_codes st)
      /\ (region_id request ∉ _invalid_region_ids st)
      /\ exists key r0,
          get_endpoint_key_from_request request = Return key
          /\ endpoints_data st !! key = None
          /\ _call_location_service fetch st w key request = (r0, st', w')
          /\ r = match r0 with
                 | Raise e => Raise e
                 | Return _ =>
                     Return (default PNone (endpoints_data st' !! key))
                 end).
Proof.
  unfold resolve. intros H.
  destruct (truthy_opt (location_service_code request)) eqn:Hl; simpl in H;
    [|inversion H; subst; left; eauto].
  destruct (decide (product_code_lower request ∈ _invalid_product_codes st))
    as [Hp|Hp]; [inversion H; subst; left; eauto|].
  destruct (decide (region_id request ∈ _invalid_region_ids st))
    as [Hr|Hr]; [inversion H; subst; left; eauto|].
  unfold get_endpoint_key_from_request in *.
  destruct (location_service_code request) as [lsc|]; [|discriminate Hl].
  set (key := _make_endpoint_entry_key _ _ _ _) in *.
  destruct (endpoints_data st !! key) as [v|] eqn:Hk;
    [inversion H; subst; left; eauto|].
  right. repeat split; auto. exists key.
  unfold _get_endpoint_from_location_service in H. rewrite Hk in H.
  destruct (_call_location_service fetch st w key request) as [[r0 st0] w0].
  exists r0. destruct r0; inversion H; subst; auto.
Qed.

Lemma resolve_grows st w request r st' w' :
  resolve fetch st w request = (r, st', w') ->
  _invalid_region_ids st ⊆ _invalid_region_ids st'
  /\ _invalid_product_codes st ⊆ _invalid_product_codes st'.
Proof.
  intros H. apply resolve_inv in H as [(-> & _ & _)|H]; [auto|].
  destruct H as (_ & _ & _ & key & r0 & _ & _ & Hc & _).
  apply call_location_service_grows in Hc. tauto.
Qed.

(** The invalid sets are append-only along any run of [resolve]
    calls. *)
Lemma resolve_all_grows requests : forall st w st' w',
  resolve_all fetch st w requests = (st', w') ->
  _invalid_region_ids st ⊆ _invalid_region_ids st'
  /\ _invalid_product_codes st ⊆ _invalid_product_codes st'.
Proof.
  induction requests as [|rq rest IH]; simpl; intros st w st' w' H.
  - inversion H; subst; auto.
  - destruct (resolve fetch st w rq) as [[r st1] w1] eqn:Hr.
    apply resolve_grows in Hr as [Hr1 Hr2].
    destruct (IH _ _ _ _ H) as [H1 H2]. split; etransitivity; eassumption.
Qed.

(** A request whose region id or lower-cased product code is in an
    invalid set is answered [None] on the spot. *)
Lemma resolve_invalid st w request :
  region_id request ∈ _invalid_region_ids st
  \/ product_code_lower request ∈ _invalid_product_codes st ->
  resolve fetch st w request = (Return PNone, st, w).
Proof.
  intros H. unfold resolve.
  destruct (negb _); [reflexivity|].
  destruct (decide _) as [|Hp]; [reflexivity|].
  destruct (decide _) as [|Hr]; [reflexivity|].
  tauto.
Qed.

(** What [_call_location_service] does on each answer of the service. *)
Lemma call_raises st w key request e :
  fetch w (fetch_args st request) = FetchRaise e ->
  (forall s, e = ServerExc s ->
             is_invalid_region s = false /\ is_illegal_parameter s = false) ->
  _call_location_service fetch st w key request
  = (Raise e, st, w ++ [fetch_args st request]).
Proof.
  intros Hf Hs. unfold _call_location_service. rewrite Hf.
  destruct e as [s | n |]; try reflexivity.
  destruct (Hs s eq_refl) as [-> ->]. reflexivity.
Qed.

Lemma call_invalid_region st w key request s :
  fetch w (fetch_args st request) = FetchRaise (ServerExc s) ->
  is_invalid_region s = true ->
  _call_location_service fetch st w key request
  = (Return tt,
     put_endpoint_entry key PNone
       (add_invalid_region_id (region_id request) st),
     w ++ [fetch_args st request]).
Proof.
  intros Hf Hs. unfold _call_location_service. now rewrite Hf, Hs.
Qed.

Lemma call_illegal_parameter st w key request s :
  fetch w (fetch_args st request) = FetchRaise (ServerExc s) ->
  is_invalid_region s = false ->
  is_illegal_parameter s = true ->
  _call_location_service fetch st w key request
  = (Return tt,
     put_endpoint_entry key PNone
       (add_invalid_product_code (product_code_lower request) st),
     w ++ [fetch_args st request]).
Proof.
  intros Hf Hr Hs. unfold _call_location_service. now rewrite Hf, Hr, Hs.
Qed.

(** When [resolve] did call the service, it went through
    [_call_location_service] with the key of the request. *)
Lemma resolve_called st w request r st' w' :
  resolve fetch st w request = (r, st', w') ->
  w' <> w ->
  exists key r0,
    get_endpoint_key_from_request request = Return key
    /\ endpoints_data st !! key = None
    /\ _call_location_service fetch st w key request = (r0, st', w')
    /\ r = match r0 with
           | Raise e => Raise e
           | Return _ => Return (default PNone (endpoints_data st' !! key))
           end.
Proof.
  intros H Hw. apply resolve_inv in H as [(_ & -> & _)|H]; [congruence|].
  destruct H as (_ & _ & _ & key & r0 & H). eauto.
Qed.

End WithService.

Lemma eqb_true_eq (a b : string) : String.eqb a b = true <-> a = b.
Proof. apply String.eqb_eq. Qed.

(** The two tests of the [except] clause, in the words of the
    specification. *)
Lemma is_invalid_region_spec s :
  is_invalid_region s = true
  <-> error_code s = "InvalidRegionId"
      /\ error_message s = "The specified region does not exist.".
Proof.
  unfold is_invalid_region. rewrite andb_true_iff, !String.eqb_eq.
  split; intros [H1 H2]; split; congruence.
Qed.

Lemma is_illegal_parameter_spec s :
  is_illegal_parameter s = true
  <-> error_code s = "Illegal Parameter"
      /\ error_message s = "Please check the parameters".
Proof.
  unfold is_illegal_parameter. rewrite andb_true_iff, !String.eqb_eq.
  split; intros [H1 H2]; split; congruence.
Qed.

Lemma not_true_false (b : bool) : ~ b = true -> b = false.
Proof. destruct b; congruence. Qed.
End EndpointFacts.

Module EndpointSpec.
Import Py Endpoint EndpointFacts EndpointSamples.

(** C7.  Two requests whose (product code, location-service code, region
    id, endpoint type) agree once the product code and the region id are
    lower-cased have the same resolution key, namely the four normalised
    parts joined with ["."], so they read the same cache entry; in
    particular ("ECS", "location-code", "CN-Hangzhou", "open") and
    ("ecs", "location-code", "cn-hangzhou", "open") have the same key. *)
Theorem C7_key_normalization (rq1 rq2 : Request) :
  lower (product_code rq1) = lower (product_code rq2) ->
  location_service_code rq1 = location_service_code rq2 ->
  lower (region_id rq1) = lower (region_id rq2) ->
  endpoint_type rq1 = endpoint_type rq2 ->
  get_endpoint_key_from_request rq1 = get_endpoint_key_from_request rq2
  /\ (forall l,
        location_service_code rq1 = Some l ->
        get_endpoint_key_from_request rq1
        = Return (lower (product_code rq1) +:+ "." +:+ l +:+ "."
                  +:+ lower (region_id rq1) +:+ "." +:+ endpoint_type rq1))
  /\ (forall (st : Resolver) k1 k2,
        get_endpoint_key_from_request rq1 = Return k1 ->
        get_endpoint_key_from_request rq2 = Return k2 ->
        endpoints_data st !! k1 = endpoints_data st !! k2)
  /\ _make_endpoint_entry_key "ECS" "location-code" "CN-Hangzhou" "open"
     = _make_endpoint_entry_key "ecs" "location-code" "cn-hangzhou" "open".
Proof.
  intros Hp Hl Hr Ht.
  assert (E : get_endpoint_key_from_request rq1
              = get_endpoint_key_from_request rq2).
  { unfold get_endpoint_key_from_request, _make_endpoint_entry_key.
    rewrite <- Hl, Hp, Hr, Ht. reflexivity. }
  split; [exact E|]. split; [|split].
  - intros l H1.
    unfold get_endpoint_key_from_request, _make_endpoint_entry_key.
    rewrite H1. reflexivity.
  - intros st k1 k2 E1 E2. rewrite E, E2 in E1. now inversion E1.
  - reflexivity.
Qed.

Lemma C7_witness :
  get_endpoint_key_from_request (request_of "ECS" "location-code" "CN-Hangzhou")
  = get_endpoint_key_from_request (request_of "ecs" "location-code" "cn-hangzhou").
Proof.
  apply (C7_key_normalization
           (request_of "ECS" "location-code" "CN-Hangzhou")
           (request_of "ecs" "location-code" "cn-hangzhou")); reflexivity.
Defined.

(** C1, refuted as stated.  After [req_ecs] was resolved to a hostname and
    a request for another product had the same region rejected, the key of
    [req_ecs] is still in the cache with its hostname, yet [resolve] answers
    [None]: the invalid-region guard comes before the cache lookup. *)
Lemma C1_counterexample :
  let '(st, w) := resolve_all stub_service init [] [req_ecs; req_rds] in
  get_endpoint_key_from_request req_ecs = Return "ecs.ecs.cn-hangzhou.openAPI"
  /\ endpoints_data st !! "ecs.ecs.cn-hangzhou.openAPI"
     = Some (PStr "ecs-cn-hangzhou.aliyuncs.com")
  /\ resolve stub_service st w req_ecs = (Return PNone, st, w)
  /\ PNone <> PStr "ecs-cn-hangzhou.aliyuncs.com".
Proof. vm_compute. repeat split; discriminate. Qed.

(** C1, amended.  When the key of a request is in the cache, [resolve]
    never calls the service and changes nothing.  It returns the cached
    value (a hostname or the [None] marker alike) whenever the request
    declares a location-service code and neither its lower-cased product
    code nor its region id is in an invalid set.  When one of these guards
    applies (no location-service code, or a code in an invalid set), it
    returns [None], even though a hostname is cached for the key.  A cached
    [None] is thus returned in every case. *)
Theorem C1_cache_hit fetch st w request key v :
  get_endpoint_key_from_request request = Return key ->
  endpoints_data st !! key = Some v ->
  (truthy_opt (location_service_code request) = true ->
   product_code_lower request ∉ _invalid_product_codes st ->
   region_id request ∉ _invalid_region_ids st ->
   resolve fetch st w request = (Return v, st, w))
  /\ (truthy_opt (location_service_code request) = false
      \/ product_code_lower request ∈ _invalid_product_codes st
      \/ region_id request ∈ _invalid_region_ids st ->
      resolve fetch st w request = (Return PNone, st, w))
  /\ (exists r, resolve fetch st w request = (Return r, st, w)
                /\ (r = v \/ r = PNone))
  /\ (v = PNone -> resolve fetch st w request = (Return PNone, st, w)).
Proof.
  intros Hk Hv.
  assert (G : truthy_opt (location_service_code request) = true ->
              product_code_lower request ∉ _invalid_product_codes st ->
              region_id request ∉ _invalid_region_ids st ->
              resolve fetch st w request = (Return v, st, w)).
  { intros Hl Hp Hr. unfold resolve. rewrite Hl; simpl.
    destruct (decide _) as [|_]; [tauto|].
    destruct (decide _) as [|_]; [tauto|].
    now rewrite Hk, Hv. }
  assert (N : truthy_opt (location_service_code request) = false
              \/ product_code_lower request ∈ _invalid_product_codes st
              \/ region_id request ∈ _invalid_region_ids st ->
              resolve fetch st w request = (Return PNone, st, w)).
  { intros [Hl|[Hp|Hr]].
    - unfold resolve. now rewrite Hl.
    - apply resolve_invalid; auto.
    - apply resolve_invalid; auto. }
  assert (C : resolve fetch st w request = (Return v, st, w)
              \/ resolve fetch st w request = (Return PNone, st, w)).
  { destruct (truthy_opt (location_service_code request)) eqn:Hl; [|auto].
    destruct (decide (product_code_lower request ∈ _invalid_product_codes st));
      [auto|].
    destruct (decide (region_id request ∈ _invalid_region_ids st)); auto. }
  split; [exact G|]. split; [exact N|]. split.
  - destruct C as [C|C]; rewrite C; eauto.
  - intros ->. destruct C as [C|C]; exact C.
Qed.

Lemma C1_witness :
  let st := fst (resolve_all stub_service init [] [req_ecs]) in
  let w := snd (resolve_all stub_service init [] [req_ecs]) in
  resolve stub_service st w req_ecs
  = (Return (PStr "ecs-cn-hangzhou.aliyuncs.com"), st, w).
Proof.
  intros st w.
  refine (proj1 (C1_cache_hit stub_service st w req_ecs
                   "ecs.ecs.cn-hangzhou.openAPI"
                   (PStr "ecs-cn-hangzhou.aliyuncs.com") _ _) _ _ _).
  - reflexivity.
  - vm_compute; reflexivity.
  - reflexivity.
  - apply (bool_decide_unpack _); vm_compute; exact I.
  - apply (bool_decide_unpack _); vm_compute; exact I.
Defined.

(** C2.  When the describe-endpoint call made by [resolve] raises anything
    but a [ServerException] of one of the two recognised shapes
    ("InvalidRegionId" with "The specified region does not exist.", or
    "Illegal Parameter" with "Please check the parameters"), [resolve]
    raises that very exception and the resolver (cache, both invalid
    sets and all the rest) is exactly as before the call. *)
Theorem C2_unrecognised_rejection_propagates fetch st w request e r st' w' :
  resolve fetch st w request = (r, st', w') ->
  w' <> w ->
  fetch w (fetch_args st request) = FetchRaise e ->
  (forall s, e = ServerExc s ->
     ~ (error_code s = "InvalidRegionId"
        /\ error_message s = "The specified region does not exist.")
     /\ ~ (error_code s = "Illegal Parameter"
           /\ error_message s = "Please check the parameters")) ->
  r = Raise e
  /\ st' = st
  /\ w' = w ++ [fetch_args st request]
  /\ endpoints_data st' = endpoints_data st
  /\ _invalid_product_codes st' = _invalid_product_codes st
  /\ _invalid_region_ids st' = _invalid_region_ids st.
Proof.
  intros H Hw Hf Hs.
  destruct (resolve_called fetch _ _ _ _ _ _ H Hw) as (key & r0 & _ & _ & Hc & Hr).
  rewrite (call_raises fetch st w key request e Hf) in Hc.
  - inversion Hc; subst. repeat split; reflexivity.
  - intros s Es. destruct (Hs s Es) as [H1 H2].
    rewrite <- is_invalid_region_spec in H1.
    rewrite <- is_illegal_parameter_spec in H2.
    split; apply not_true_false; assumption.
Qed.

Lemma C2_witness :
  resolve stub_service init [] req_slb
  = (Raise (ServerExc throttling_exc), init, [fetch_args init req_slb]).
Proof.
  destruct (C2_unrecognised_rejection_propagates stub_service init [] req_slb
              (ServerExc throttling_exc)
              (Raise (ServerExc throttling_exc)) init [fetch_args init req_slb])
    as (_ & _ & _ & _).
  - vm_compute; reflexivity.
  - discriminate.
  - reflexivity.
  - intros s Es. inversion Es; subst s. split; intros [Hc _]; discriminate Hc.
  - vm_compute; reflexivity.
Defined.

(** C6.  Once a call of [resolve] had the service reject its request with
    "InvalidRegionId" / "The specified region does not exist.", every
    later [resolve] on that resolver, after any number of other [resolve]
    calls, for a request with the same region id (whatever its product
    code) returns [None] without calling the service and without changing
    the resolver; and likewise, after an "Illegal Parameter" / "Please
    check the parameters" rejection, for every request with the same
    (lower-cased) product code. *)
Theorem C6_invalid_codes_short_circuit fetch st w request s r st1 w1 :
  resolve fetch st w request = (r, st1, w1) ->
  w1 <> w ->
  fetch w (fetch_args st request) = FetchRaise (ServerExc s) ->
  forall later st2 w2 request',
    resolve_all fetch st1 w1 later = (st2, w2) ->
    (error_code s = "InvalidRegionId"
     /\ error_message s = "The specified region does not exist." ->
     region_id request' = region_id request ->
     resolve fetch st2 w2 request' = (Return PNone, st2, w2))
    /\ (error_code s = "Illegal Parameter"
        /\ error_message s = "Please check the parameters" ->
        lower (product_code request') = lower (product_code request) ->
        resolve fetch st2 w2 request' = (Return PNone, st2, w2)).
Proof.
  intros H Hw Hf later st2 w2 request' Hl.
  destruct (resolve_called fetch _ _ _ _ _ _ H Hw) as (key & r0 & _ & _ & Hc & _).
  destruct (resolve_all_grows fetch later _ _ _ _ Hl) as [Gr Gp].
  split; intros Hs Heq.
  - apply is_invalid_region_spec in Hs.
    rewrite (call_invalid_region fetch st w key request s Hf Hs) in Hc.
    inversion Hc; subst st1 w1. apply resolve_invalid. left.
    apply Gr. rewrite Heq. simpl. set_solver.
  - assert (Hr : is_invalid_region s = false).
    { apply not_true_false. rewrite is_invalid_region_spec.
      intros [Hc' _]. destruct Hs as [Hs _]. congruence. }
    apply is_illegal_parameter_spec in Hs.
    rewrite (call_illegal_parameter fetch st w key request s Hf Hr Hs) in Hc.
    inversion Hc; subst st1 w1. apply resolve_invalid. right.
    apply Gp. unfold product_code_lower. rewrite Heq. simpl. set_solver.
Qed.

Lemma C6_witness :
  (let st1 := snd (fst (resolve stub_service init [] req_rds)) in
   let w1 := snd (resolve stub_service init [] req_rds) in
   let st2 := fst (resolve_all stub_service st1 w1 [req_oss; req_slb]) in
   let w2 := snd (resolve_all stub_service st1 w1 [req_oss; req_slb]) in
   resolve stub_service st2 w2 req_ecs = (Return PNone, st2, w2))
  /\ (let st1 := snd (fst (resolve stub_service init [] req_oss)) in
      let w1 := snd (resolve stub_service init [] req_oss) in
      let st2 := fst (resolve_all stub_service st1 w1 [req_ecs]) in
      let w2 := snd (resolve_all stub_service st1 w1 [req_ecs]) in
      resolve stub_service st2 w2 req_oss_upper = (Return PNone, st2, w2)).
Proof.
  split; intros st1 w1 st2 w2.
  - refine (proj1 (C6_invalid_codes_short_circuit stub_service init [] req_rds
                     invalid_region_exc (Return PNone) st1 w1 _ _ _
                     [req_oss; req_slb] st2 w2 req_ecs _) _ _).
    + vm_compute; reflexivity.
    + discriminate.
    + reflexivity.
    + vm_compute; reflexivity.
    + split; reflexivity.
    + reflexivity.
  - refine (proj2 (C6_invalid_codes_short_circuit stub_service init [] req_oss
                     illegal_parameter_exc (Return PNone) st1 w1 _ _ _
                     [req_ecs] st2 w2 req_oss_upper _) _ _).
    + vm_compute; reflexivity.
    + discriminate.
    + reflexivity.
    + vm_compute; reflexivity.
    + split; reflexivity.
    + reflexivity.
Defined.

(** C9, refuted as stated.  The only entry of the answer has the requested
    type and carries the field "ServiceCode", with the empty string as its
    value; it is not selected, and [None] is cached and returned instead of
    its endpoint. *)
Lemma C9_counterexample :
  let request := request_of "Kms" "kms" "cn-hangzhou" in
  stub_service [] (fetch_args init request) = FetchOk [blank_item]
  /\ blank_item !! "ServiceCode" = Some (PStr "")
  /\ item_get blank_item "Type" = PStr (endpoint_type request)
  /\ item_get blank_item "Endpoint" = PStr "ecs.aliyuncs.com"
  /\ fst (fst (resolve stub_service init [] request)) = Return PNone
  /\ fst (fst (resolve stub_service init [] request))
     <> Return (item_get blank_item "Endpoint")
  /\ endpoints_data (snd (fst (resolve stub_service init [] request)))
       !! "kms.kms.cn-hangzhou.openAPI" = Some PNone.
Proof. vm_compute. repeat split; try reflexivity. discriminate. Qed.

(** The test of the loop in the words of the specification: a service
    code that counts (non-empty, under either spelling) and the requested
    type. *)
Lemma item_selected_spec t (it : item) :
  item_selected t it = true
  <-> (truthy (item_get it "ServiceCode") = true
       \/ truthy (item_get it "SerivceCode") = true)
      /\ item_get it "Type" = PStr t.
Proof.
  unfold item_selected, py_or. rewrite andb_true_iff.
  assert (E : eq_str (item_get it "Type") t = true
              <-> item_get it "Type" = PStr t).
  { destruct (item_get it "Type"); simpl; try (split; discriminate).
    rewrite String.eqb_eq. split; congruence. }
  rewrite E.
  destruct (truthy (item_get it "ServiceCode")) eqn:H1; [tauto|].
  destruct (truthy (item_get it "SerivceCode")) eqn:H2; [tauto|].
  split; [intros [? _]; discriminate|intros [[?|?] _]; discriminate].
Qed.

(** C9, amended.  In the list answered by the service, an entry counts
    when its "Type" is the requested endpoint type and it has a true
    (non-empty) value under "ServiceCode" or, failing that, under the
    misspelt "SerivceCode"; a true "ServiceCode" is the one consulted when
    both are there.  The "Endpoint" of the first entry that counts is
    cached under the key of the request and returned; when no entry
    counts, [None] is cached and returned. *)
Theorem C9_endpoint_scan fetch st w request key endpoints r st' w' :
  resolve fetch st w request = (r, st', w') ->
  w' <> w ->
  get_endpoint_key_from_request request = Return key ->
  fetch w (fetch_args st request) = FetchOk endpoints ->
  let counts (it : item) :=
    (truthy (item_get it "ServiceCode") = true
     \/ truthy (item_get it "SerivceCode") = true)
    /\ item_get it "Type" = PStr (endpoint_type request) in
  (forall pre it post,
      endpoints = pre ++ it :: post ->
      Forall (fun i => ~ counts i) pre ->
      counts it ->
      r = Return (item_get it "Endpoint")
      /\ endpoints_data st' !! key = Some (item_get it "Endpoint"))
  /\ (Forall (fun i => ~ counts i) endpoints ->
      r = Return PNone /\ endpoints_data st' !! key = Some PNone)
  /\ (forall it : item,
        truthy (item_get it "ServiceCode") = true ->
        py_or (item_get it "ServiceCode") (item_get it "SerivceCode")
        = item_get it "ServiceCode").
Proof.
  intros H Hw Hk Hf counts.
  destruct (resolve_called fetch _ _ _ _ _ _ H Hw)
    as (key' & r0 & Hk' & _ & Hc & Hr).
  rewrite Hk in Hk'. inversion Hk'; subst key'. clear Hk'.
  unfold _call_location_service in Hc. rewrite Hf in Hc.
  assert (Hn : forall l, Forall (fun i => ~ counts i) l ->
               Forall (fun i => item_selected (endpoint_type request) i = false) l).
  { intros l Hl. eapply Forall_impl; [exact Hl|]. intros i Hi. simpl in Hi.
    apply not_true_false. rewrite item_selected_spec. exact Hi. }
  split; [|split].
  - intros pre it post -> Hpre Hit.
    rewrite (scan_endpoints_found key (endpoint_type request) pre it post)
      in Hc; [| now apply Hn | now apply item_selected_spec].
    simpl in Hc. inversion Hc; subst r0 st' w'.
    rewrite Hr, put_endpoint_entry_lookup. split; reflexivity.
  - intros Hall.
    rewrite (scan_endpoints_none key (endpoint_type request) endpoints)
      in Hc; [| now apply Hn].
    simpl in Hc. inversion Hc; subst r0 st' w'.
    rewrite Hr, put_endpoint_entry_lookup. split; reflexivity.
  - intros it Ht. unfold py_or. now rewrite Ht.
Qed.

Lemma C9_witness :
  fst (fst (resolve stub_service init [] req_ecs))
  = Return (PStr "ecs-cn-hangzhou.aliyuncs.com")
  /\ endpoints_data (snd (fst (resolve stub_service init [] req_ecs)))
       !! "ecs.ecs.cn-hangzhou.openAPI"
     = Some (PStr "ecs-cn-hangzhou.aliyuncs.com").
Proof.
  refine (proj1 (C9_endpoint_scan stub_service init [] req_ecs
                   "ecs.ecs.cn-hangzhou.openAPI"
                   [inner_item; ecs_item; later_item]
                   (fst (fst (resolve stub_service init [] req_ecs)))
                   (snd (fst (resolve stub_service init [] req_ecs)))
                   (snd (resolve stub_service init [] req_ecs)) _ _ _ _)
            [inner_item] ecs_item [later_item] _ _ _).
  - vm_compute; reflexivity.
  - vm_compute; discriminate.
  - reflexivity.
  - reflexivity.
  - reflexivity.
  - constructor; [|constructor]. vm_compute. intros [_ Hc]. discriminate Hc.
  - vm_compute. split; [right|]; reflexivity.
Defined.
End EndpointSpec.

(** ** Properties of the signers *)

Module ComposerFacts.
Import Py PyFacts PyMoreFacts Composer ComposerClaims.

#[local] Arguments String.append !_ _ / : simpl nomatch.

Lemma pop_standard_urlencode_spec s :
  RPCSigner._pop_standard_urlencode s = spec_three_fixups s.
Proof. reflexivity. Qed.

Lemma append_query_spec qb kv :
  ROASigner.append_query qb kv = qb +:+ (spec_emit_query kv +:+ "&").
Proof.
  unfold ROASigner.append_query, spec_emit_query.
  destruct (snd kv); now rewrite !append_assoc.
Qed.

Lemma fold_append_query l : forall qb,
  fold_left ROASigner.append_query l qb
  = fold_left (fun a x => a +:+ (x +:+ "&")) (map spec_emit_query l) qb.
Proof.
  induction l as [|kv l IH]; intros qb; simpl; [reflexivity|].
  now rewrite IH, append_query_spec.
Qed.

(** Storing the same value under the same key twice is storing it
    once. *)
Lemma dict_set_twice {V} k (v : V) (d : dict V) :
  dict_set k v (dict_set k v d) = dict_set k v d.
Proof. apply dict_set_same. now rewrite dict_get_set, String.eqb_refl. Qed.

(** [_build_canonical_resource] on the mapping it has already been
    through returns the same text and leaves the mapping as it is. *)
Lemma build_canonical_resource_again uri queries :
  ROASigner._build_canonical_resource uri
    (snd (ROASigner._build_canonical_resource uri queries))
  = ROASigner._build_canonical_resource uri queries.
Proof.
  unfold ROASigner._build_canonical_resource. cbn [snd].
  destruct (snd (rsplit1 "?" uri)) as [f|]; [|reflexivity].
  now rewrite dict_set_twice.
Qed.

(** The four headers of [_refresh_sign_parameters], stored a second time
    with the same values, change nothing. *)
Lemma refresh_sign_parameters_again accept_json self date :
  let self1 := snd (ROASigner._refresh_sign_parameters accept_json self date) in
  ROASigner._refresh_sign_parameters accept_json self1 date
  = (ROASigner._headers self1, self1).
Proof.
  destruct self as [c r rg vs sg h u].
  unfold ROASigner._refresh_sign_parameters, ROASigner.with_headers; simpl.
  set (h1 := dict_set "Date" date h).
  set (h2 := dict_set "Accept" accept_json h1).
  set (h3 := dict_set "x-acs-signature-method" (signer_name sg) h2).
  set (h4 := dict_set "x-acs-signature-version" (signer_version sg) h3).
  assert (E1 : dict_set "Date" date h4 = h4).
  { apply dict_set_same. unfold h4, h3, h2, h1.
    rewrite !dict_get_set. reflexivity. }
  assert (E2 : dict_set "Accept" accept_json h4 = h4).
  { apply dict_set_same. unfold h4, h3, h2.
    rewrite !dict_get_set. reflexivity. }
  assert (E3 : dict_set "x-acs-signature-method" (signer_name sg) h4 = h4).
  { apply dict_set_same. unfold h4, h3.
    rewrite !dict_get_set. reflexivity. }
  assert (E4 : dict_set "x-acs-signature-version" (signer_version sg) h4 = h4).
  { apply dict_set_same. unfold h4.
    rewrite !dict_get_set. reflexivity. }
  now rewrite E1, E2, E3, E4.
Qed.

Lemma rpc_signature_unfold self :
  RPCSigner.signature self
  = (RPCSigner._calc_signature (Request.method (RPCSigner.request self))
       (dict_update (RPCSigner.parameters self) (rpc_assignments self)),
     RPCSigner.with_parameters
       (dict_update (RPCSigner.parameters self) (rpc_assignments self)) self).
Proof.
  unfold RPCSigner.signature, rpc_assignments, dict_update.
  rewrite !fold_left_app.
  destruct (security_token _), (bearer_token _); reflexivity.
Qed.

(** *** The property [params] of [ROASigner] *)

Lemma urlencode_snoc_none (q : dict (option string)) (k : string) :
  urlencode (q ++ [(k, None)])
  = match q with
    | [] => quote_plus k +:+ "=None"
    | _ => urlencode q +:+ "&" +:+ quote_plus k +:+ "=None"
    end.
Proof.
  unfold urlencode. rewrite map_app. cbn [map]. rewrite join_snoc.
  destruct q; reflexivity.
Qed.

Lemma endswith_none (s : string) : endswith_char "?" (s +:+ "=None") = false.
Proof.
  change "=None" with ("=Non" +:+ String "e" "").
  now rewrite <- append_assoc, endswith_char_snoc.
Qed.

(** The URI followed by ["?"] unless it ends with one. *)
Lemma params_length_le self :
  String.length (ROASigner.params self)
  <= String.length (ROASigner._uri self) + 1
     + String.length (urlencode (Request._query_params (ROASigner.request self))).
Proof.
  unfold ROASigner.params. cbn [String.append].
  set (u := ROASigner._uri self).
  set (e := urlencode _).
  destruct (endswith_char "?" u); cbn [negb].
  - destruct (endswith_char "?" (u +:+ e)).
    + pose proof (drop_last_length (u +:+ e)). rewrite length_append in *. lia.
    + rewrite length_append. lia.
  - destruct (endswith_char "?" ((u +:+ "?") +:+ e)).
    + pose proof (drop_last_length ((u +:+ "?") +:+ e)).
      rewrite !length_append in *. simpl in *. lia.
    + rewrite !length_append. simpl. lia.
Qed.

(** With a new key of value [None] at the end of the query parameters,
    [params] is longer by the new ["key=None"] at least. *)
Lemma params_longer self self' k :
  ROASigner._uri self' = ROASigner._uri self ->
  Request._query_params (ROASigner.request self')
  = Request._query_params (ROASigner.request self) ++ [(k, None)] ->
  String.length (ROASigner.params self)
  < String.length (ROASigner.params self').
Proof.
  intros Hu Hq. pose proof (params_length_le self) as Hle.
  set (u := ROASigner._uri self) in *.
  set (q := Request._query_params (ROASigner.request self)) in *.
  enough (String.length u + 1 + String.length (urlencode q)
          < String.length (ROASigner.params self')) by lia.
  clear Hle. unfold ROASigner.params. cbn [String.append]. rewrite Hu, Hq.
  assert (P : forall base : string,
             exists z : string,
               base +:+ urlencode (q ++ [(k, None)]) = z +:+ "=None"
               /\ String.length base + String.length (urlencode q) + 5
                  <= String.length (z +:+ "=None")).
  { intros base. rewrite urlencode_snoc_none. destruct q as [|kv q'].
    - exists (base +:+ quote_plus k). rewrite !append_assoc. split; [reflexivity|].
      rewrite !length_append. simpl. lia.
    - exists (base +:+ urlencode (kv :: q') +:+ "&" +:+ quote_plus k).
      rewrite !append_assoc. split; [reflexivity|].
      rewrite !length_append. simpl. lia. }
  pose proof (drop_last_length u) as Hd.
  destruct (endswith_char "?" u) eqn:Eu; cbn [negb].
  - destruct (P u) as (z & -> & Hz). rewrite endswith_none. lia.
  - destruct (P (u +:+ "?")) as (z & -> & Hz). rewrite endswith_none.
    rewrite length_append in Hz. simpl in Hz. lia.
Qed.

(** With a query parameter, [params] is the URI, a ["?"] unless the URI
    ends with one, and the form-encoded parameters: nothing is cut. *)
Lemma params_of_nonempty_query self :
  Request._query_params (ROASigner.request self) <> [] ->
  ROASigner.params self
  = (if endswith_char "?" (ROASigner._uri self)
     then ROASigner._uri self
     else ROASigner._uri self +:+ "?")
    +:+ urlencode (Request._query_params (ROASigner.request self)).
Proof.
  intros Hq. unfold ROASigner.params. cbn [String.append].
  destruct (urlencode_nonempty _ Hq) as (z & y & -> & Hy).
  destruct (endswith_char "?" (ROASigner._uri self)); cbn [negb];
    rewrite <- append_assoc, endswith_char_after by (auto; discriminate);
    reflexivity.
Qed.

(** Storing [None] under a key that the query parameters hold already
    changes what [params] returns, unless the key held [None] or the text
    ["None"]. *)
Lemma params_set_none self self' k v :
  ROASigner._uri self' = ROASigner._uri self ->
  Request._query_params (ROASigner.request self')
  = dict_set k None (Request._query_params (ROASigner.request self)) ->
  dict_get (Request._query_params (ROASigner.request self)) k = Some v ->
  ROASigner.params self' = ROASigner.params self <-> str v = "None".
Proof.
  intros Hu Hq Hg.
  assert (N : Request._query_params (ROASigner.request self) <> [])
    by (intros E; rewrite E in Hg; discriminate Hg).
  assert (N' : Request._query_params (ROASigner.request self') <> [])
    by (rewrite Hq; apply dict_set_nonempty).
  rewrite (params_of_nonempty_query self N),
    (params_of_nonempty_query self' N'), Hu, Hq.
  split.
  - intros H. apply append_cancel_l in H.
    destruct (String.eqb_spec (str v) "None") as [E|E]; [exact E|].
    now apply (urlencode_set_none_differs _ _ _ Hg) in E.
  - intros E. now rewrite (urlencode_set_none_same _ _ _ Hg E).
Qed.

Lemma occurs_rsplit1 c (s : string) :
  occurs c s -> exists h t, rsplit1 c s = (h, Some t).
Proof.
  intros H. pose proof (rsplit1_spec c s) as R.
  destruct (rsplit1 c s) as [h [t|]]; [eauto | tauto].
Qed.

(** What the property [signature] of [ROASigner] leaves in the signer. *)
Lemma roa_signature_state accept_json self date :
  snd (ROASigner.signature accept_json self date)
  = ROASigner.with_request
      (Request.with_query_params
         (snd (ROASigner._build_canonical_resource (ROASigner._uri self)
                 (Request._query_params (ROASigner.request self))))
         (ROASigner.request self))
      (snd (ROASigner._refresh_sign_parameters accept_json self date)).
Proof.
  unfold ROASigner.signature.
  destruct (ROASigner._refresh_sign_parameters accept_json self date)
    as [h s1] eqn:E.
  unfold ROASigner._refresh_sign_parameters in E. injection E as <- <-.
  cbn [ROASigner.with_headers ROASigner.request ROASigner._uri].
  destruct (ROASigner._build_canonical_resource _ _). reflexivity.
Qed.

(** A constructor given a well-formed query mapping makes a well-formed
    [parameters]. *)
Lemma rpc_init_wf c api_request region_id version signer timestamp nonce self :
  dict_wf (Request._query_params api_request) ->
  RPCSigner.init (Some c) api_request region_id version signer timestamp nonce
  = Return self ->
  dict_wf (RPCSigner.parameters self).
Proof.
  intros Hwf H. unfold RPCSigner.init in H; simpl in H.
  injection H as <-. simpl.
  destruct (access_key_id c); repeat apply dict_set_wf; exact Hwf.
Qed.

End ComposerFacts.

Module ComposerSpec.
Import Py PyFacts Composer ComposerClaims ComposerFacts ComposerSamples.

#[local] Arguments String.append !_ _ / : simpl nomatch.

(** C3.  The string to sign of an RPC request is the HTTP method, then
    ["&%2F&"], then the merged parameters sorted by key, form-encoded,
    passed through the three fixups, percent-encoded a second time as a
    path and passed through the three fixups again.  The merged
    parameters are those of the signer updated with the body parameters
    and with the security and bearer tokens that are present. *)
Theorem C3_rpc_canonical_string (self : RPCSigner.t) :
  let merged := RPCSigner.parameters (snd (RPCSigner.signature self)) in
  fst (RPCSigner.signature self)
  = spec_rpc_canonical_string (Request.method (RPCSigner.request self)) merged
  /\ Permutation merged (sorted_items merged)
  /\ Sorted key_le (sorted_items merged)
  /\ merged = dict_update (RPCSigner.parameters self) (rpc_assignments self).
Proof.
  intros merged. split; [|split; [|split]].
  - unfold merged, RPCSigner.signature, RPCSigner._calc_signature,
      spec_rpc_canonical_string, pathname2url; simpl.
    rewrite !pop_standard_urlencode_spec. now rewrite append_assoc.
  - apply sorted_items_perm.
  - apply sorted_items_sorted.
  - unfold merged. now rewrite rpc_signature_unfold.
Qed.

(** The sample of section 8: [GET], [DescribeRegions], no query
    parameter. *)
Example rpc_sample :
  fst (RPCSigner.signature (built no_rpc_signer (rpc_signer nonce1)))
  = "GET&%2F&AccessKeyId%3DAKID%26Action%3DDescribeRegions%26Format%3DJSON"
    +:+ "%26SignatureMethod%3DHMAC-SHA1"
    +:+ "%26SignatureNonce%3D7f1c2f0e-0000-4000-8000-000000000001"
    +:+ "%26SignatureType%3D%26SignatureVersion%3D1.0"
    +:+ "%26Timestamp%3D2026-11-03T10%253A00%253A00Z%26Version%3D2014-05-26".
Proof. vm_compute. reflexivity. Qed.

(** C5, refuted as stated.  Without credentials the constructor of
    [RPCSigner] does not return an object: it raises. *)
Lemma C5_counterexample :
  RPCSigner.init None describe_regions "cn-hangzhou" "2014-05-26"
    stub_algorithm timestamp1 nonce1
  = Raise NoCredentialsException
  /\ ~ (exists self,
          RPCSigner.init None describe_regions "cn-hangzhou" "2014-05-26"
            stub_algorithm timestamp1 nonce1
          = Return self).
Proof. split; [reflexivity|]. intros [self H]. discriminate H. Qed.

(** C5, amended.  When no credentials are bound, both constructors raise
    the no-credentials failure: that of [ROASigner] while it prepares the
    headers, that of [RPCSigner] while it builds its parameters, which it
    does at construction time too.  With credentials both construct. *)
Theorem C5_no_credentials_at_construction md5_sum api_request region_id
  version signer timestamp nonce :
  ROASigner._prepare_headers md5_sum None api_request region_id version
  = Raise NoCredentialsException
  /\ ROASigner.init md5_sum None api_request region_id version signer
     = Raise NoCredentialsException
  /\ RPCSigner._canonicalized_query_string None api_request version signer
       timestamp nonce
     = Raise NoCredentialsException
  /\ RPCSigner.init None api_request region_id version signer timestamp nonce
     = Raise NoCredentialsException
  /\ (forall c, exists self,
        ROASigner.init md5_sum (Some c) api_request region_id version signer
        = Return self)
  /\ (forall c, exists self,
        RPCSigner.init (Some c) api_request region_id version signer
          timestamp nonce
        = Return self).
Proof.
  repeat split; intros c; eexists; reflexivity.
Qed.

(** C8, refuted as stated.  On a URI with two ["?"] the code splits at the
    last one: the fragment it folds in is ["c"], not ["b?c"], and the
    resource block differs from the one obtained by splitting at the
    first ["?"]. *)
Lemma C8_counterexample :
  ROASigner._build_canonical_resource "/a?b?c" [("a", Some "1")]
  = ("/a?b?a=1&c", [("a", Some "1"); ("c", None)])
  /\ spec_canonical_resource (split1 "?") "/a?b?c" [("a", Some "1")]
     = ("/a?a=1&b?c", [("a", Some "1"); ("b?c", None)])
  /\ ROASigner._build_canonical_resource "/a?b?c" [("a", Some "1")]
     <> spec_canonical_resource (split1 "?") "/a?b?c" [("a", Some "1")].
Proof. vm_compute. repeat split; discriminate. Qed.

(** C8, amended.  The resource block is built by splitting the resolved
    URI at its last ["?"]; the text after it, when there is a ["?"], is
    stored in the query parameters of the request as a key with value
    [None]; the parameters are then sorted by key and emitted after the
    path as ["?key=value&key2&..."], without ["=value"] for a [None] and
    without a separator after the last one.  (With no parameter the block
    is the path; this is stated for a path that does not end with
    ["&"].) *)
Theorem C8_canonical_resource (uri : string) (queries : dict (option string)) :
  let path := fst (rsplit1 "?" uri) in
  let fragment := snd (rsplit1 "?" uri) in
  let queries' :=
    match fragment with
    | Some f => dict_set f None queries
    | None => queries
    end in
  snd (ROASigner._build_canonical_resource uri queries) = queries'
  /\ match sorted_items queries' with
     | [] =>
         endswith_char "&" path = false ->
         fst (ROASigner._build_canonical_resource uri queries) = path
     | items =>
         fst (ROASigner._build_canonical_resource uri queries)
         = path +:+ "?" +:+ join "&" (map spec_emit_query items)
     end
  /\ Permutation queries' (sorted_items queries')
  /\ Sorted key_le (sorted_items queries')
  /\ match fragment with
     | Some f => uri = path +:+ String "?" f /\ ~ occurs "?" f
                 /\ dict_get queries' f = Some None
     | None => uri = path /\ ~ occurs "?" uri
     end.
Proof.
  intros path fragment queries'.
  split; [reflexivity|]. split; [|split; [|split]].
  - unfold ROASigner._build_canonical_resource.
    fold path fragment queries'. cbn [fst snd].
    destruct (sorted_items queries') as [|kv items] eqn:E.
    + intros Hp. cbn [length Nat.ltb Nat.leb fold_left]. now rewrite Hp.
    + cbn [length Nat.ltb Nat.leb]. rewrite fold_append_query.
      rewrite concat_sep_join by discriminate.
      rewrite <- !append_assoc.
      change "&" with (String "&" "") at 2 3.
      now rewrite endswith_char_snoc, drop_last_snoc, !append_assoc.
  - apply sorted_items_perm.
  - apply sorted_items_sorted.
  - pose proof (rsplit1_spec "?" uri) as H.
    unfold queries', fragment, path.
    destruct (rsplit1 "?" uri) as [h [t|]]; cbn [fst snd].
    + destruct H as [H1 H2]. repeat split; auto.
      now rewrite dict_get_set, String.eqb_refl.
    + destruct H as [H1 H2]. split; auto.
Qed.

Lemma C8_witness :
  fst (ROASigner._build_canonical_resource "/clusters/c-1" [])
  = "/clusters/c-1".
Proof.
  apply (proj1 (proj2 (C8_canonical_resource "/clusters/c-1" []))).
  reflexivity.
Defined.

(** C4, refuted as stated.  With the request, the credentials, the region
    id and the version fixed, the string to sign still varies: two RPC
    signers differ by the nonce drawn at construction; the ROA string
    differs with the date read at each evaluation; and on one RPC signer
    the string to sign evaluated after [params] contains the signature
    that [params] stored. *)
Lemma C4_counterexample :
  (let self1 := built no_rpc_signer (rpc_signer nonce1) in
   let self2 := built no_rpc_signer (rpc_signer nonce2) in
   fst (RPCSigner.signature self1) <> fst (RPCSigner.signature self2))
  /\ (let self :=
        built no_roa_signer (roa_signer "/clusters/[ClusterId]" []) in
      fst (ROASigner.signature application_json self date1)
      <> fst (ROASigner.signature application_json self date2))
  /\ (let self := built no_rpc_signer (rpc_signer nonce1) in
      fst (RPCSigner.signature self)
      <> fst (RPCSigner.signature (snd (RPCSigner.params self)))).
Proof.
  repeat split; cbv zeta; apply String.eqb_neq; vm_compute; reflexivity.
Qed.

(** C4, amended.  On one authenticator and under one reading of the
    environment, the string to sign is the same at every evaluation, and
    so is the signature computed from it: for ROA, a second evaluation of
    [signature] with the same date returns the same string and leaves the
    signer as the first left it; for RPC, whose timestamp and nonce are
    drawn once by the constructor, a second evaluation of [signature]
    returns the same string and leaves the signer as the first left it. *)
Theorem C4_same_environment_same_string :
  (forall accept_json (self : ROASigner.t) date,
      let self1 := snd (ROASigner.signature accept_json self date) in
      ROASigner.signature accept_json self1 date
      = (fst (ROASigner.signature accept_json self date), self1)
      /\ sign_string (ROASigner.signer self)
           (fst (ROASigner.signature accept_json self1 date))
           (access_key_secret (ROASigner.credentials self))
         = sign_string (ROASigner.signer self)
             (fst (ROASigner.signature accept_json self date))
             (access_key_secret (ROASigner.credentials self)))
  /\ (forall c api_request region_id version signer timestamp nonce self,
        dict_wf (Request._query_params api_request) ->
        RPCSigner.init (Some c) api_request region_id version signer
          timestamp nonce = Return self ->
        let self1 := snd (RPCSigner.signature self) in
        RPCSigner.signature self1
        = (fst (RPCSigner.signature self), self1)
        /\ sign_string signer (fst (RPCSigner.signature self1))
             (access_key_secret c +:+ "&")
           = sign_string signer (fst (RPCSigner.signature self))
               (access_key_secret c +:+ "&")).
Proof.
  split.
  - intros accept_json self date self1.
    enough (E : ROASigner.signature accept_json self1 date
                = (fst (ROASigner.signature accept_json self date), self1))
      by (split; [exact E | now rewrite E]).
    unfold self1, ROASigner.signature.
    pose proof (refresh_sign_parameters_again accept_json self date) as R.
    destruct (ROASigner._refresh_sign_parameters accept_json self date)
      as [h s1] eqn:E.
    assert (Eh : h = ROASigner._headers s1).
    { unfold ROASigner._refresh_sign_parameters in E. injection E as <- <-.
      reflexivity. }
    cbn [snd] in R.
    pose proof (build_canonical_resource_again (ROASigner._uri s1)
                  (Request._query_params (ROASigner.request s1))) as B.
    destruct (ROASigner._build_canonical_resource (ROASigner._uri s1)
                (Request._query_params (ROASigner.request s1)))
      as [res q'] eqn:Eb.
    cbn [snd fst] in *.
    change (ROASigner._refresh_sign_parameters accept_json
              (ROASigner.with_request
                 (Request.with_query_params q' (ROASigner.request s1)) s1) date)
      with (let '(p, s) := ROASigner._refresh_sign_parameters accept_json s1 date
            in (p, ROASigner.with_request
                     (Request.with_query_params q' (ROASigner.request s1)) s)).
    rewrite R. cbn [ROASigner.with_request ROASigner.request ROASigner._uri
                      Request.with_query_params Request._query_params
                      Request.method].
    rewrite B, <- Eh. reflexivity.
  - intros c api_request region_id version signer timestamp nonce self
      Hwf Hinit self1.
    pose proof (rpc_init_wf _ _ _ _ _ _ _ _ Hwf Hinit) as W.
    assert (E : RPCSigner.signature self1
                = (fst (RPCSigner.signature self), self1)).
    { unfold self1. rewrite !rpc_signature_unfold. cbn [fst snd].
      change (rpc_assignments (RPCSigner.with_parameters _ self))
        with (rpc_assignments self).
      cbn [RPCSigner.with_parameters RPCSigner.parameters RPCSigner.request].
      now rewrite dict_update_idempotent. }
    split; [exact E|]. now rewrite E.
Qed.

Lemma C4_witness :
  let self := built no_rpc_signer (rpc_signer nonce1) in
  RPCSigner.signature (snd (RPCSigner.signature self))
  = (fst (RPCSigner.signature self), snd (RPCSigner.signature self)).
Proof.
  intros self.
  refine (proj1 (proj2 C4_same_environment_same_string access_key
                   describe_regions "cn-hangzhou" "2014-05-26" stub_algorithm
                   timestamp1 nonce1 self _ _)).
  - constructor.
  - reflexivity.
Defined.

(** C10, refuted as stated.  The resolved URI ["/a?x"] contains a ["?"],
    but the query parameters already hold its fragment ["x"], with value
    [None] or with the text ["None"]: evaluating the signature stores
    [None] under the key, which [params] writes as it wrote the value
    before, and [params] returns the same string after as before. *)
Lemma C10_counterexample :
  let self :=
    built no_roa_signer (roa_signer "/a?x" [("x", None)]) in
  let self1 := snd (ROASigner.signature application_json self date1) in
  let other :=
    built no_roa_signer (roa_signer "/a?x" [("x", Some "None")]) in
  let other1 := snd (ROASigner.signature application_json other date1) in
  (roa_signer "/a?x" [("x", None)] = Return self
   /\ rsplit1 "?" (ROASigner._uri self) = ("/a", Some "x")
   /\ ROASigner.params self = "/a?x?x=None"
   /\ ROASigner.params self1 = ROASigner.params self)
  /\ (roa_signer "/a?x" [("x", Some "None")] = Return other
      /\ rsplit1 "?" (ROASigner._uri other) = ("/a", Some "x")
      /\ Request._query_params (ROASigner.request other1) = [("x", None)]
      /\ ROASigner.params other = "/a?x?x=None"
      /\ ROASigner.params other1 = ROASigner.params other).
Proof. vm_compute. repeat split; reflexivity. Qed.

(** C10, amended.  Evaluating the string to sign of an [ROASigner],
    directly or through the property [headers], is not read-only.  It
    stores "Date", "Accept", "x-acs-signature-method" and
    "x-acs-signature-version" in the signer's own header mapping, which
    is the mapping that [headers] returns.  And when the resolved URI
    contains a ["?"], it stores the text after the last one as a key of
    value [None] in the query parameters of the request itself; [params]
    then returns a different string after the evaluation than before it,
    except in one case, where it returns the same: the query parameters
    held that key already, with the value [None] or the text ["None"]. *)
Theorem C10_signature_is_not_read_only accept_json (self : ROASigner.t) date :
  let self1 := snd (ROASigner.signature accept_json self date) in
  let written (h : dict string) (d : string) :=
    dict_get h "Date" = Some d
    /\ dict_get h "Accept" = Some accept_json
    /\ dict_get h "x-acs-signature-method"
       = Some (signer_name (ROASigner.signer self))
    /\ dict_get h "x-acs-signature-version"
       = Some (signer_version (ROASigner.signer self)) in
  written (ROASigner._headers self1) date
  /\ (forall date',
        let hs := ROASigner.headers accept_json self1 date' in
        fst hs = ROASigner._headers (snd hs) /\ written (fst hs) date')
  /\ (occurs "?" (ROASigner._uri self) ->
      exists path fragment,
        rsplit1 "?" (ROASigner._uri self) = (path, Some fragment)
        /\ Request._query_params (ROASigner.request self1)
           = dict_set fragment None
               (Request._query_params (ROASigner.request self))
        /\ dict_get (Request._query_params (ROASigner.request self1)) fragment
           = Some None
        /\ (ROASigner.params self1 = ROASigner.params self
            <-> exists v,
                  dict_get (Request._query_params (ROASigner.request self))
                    fragment = Some v
                  /\ str v = "None")).
Proof.
  intros self1 written.
  assert (W : forall s d,
             ROASigner.signer s = ROASigner.signer self ->
             written (ROASigner._headers
                        (snd (ROASigner._refresh_sign_parameters accept_json s d))) d).
  { intros s d E.
    unfold written, ROASigner._refresh_sign_parameters. cbn [snd].
    cbn [ROASigner.with_headers ROASigner._headers].
    rewrite !dict_get_set, E. cbn. auto. }
  assert (S1 : ROASigner._headers self1
               = ROASigner._headers
                   (snd (ROASigner._refresh_sign_parameters accept_json self date))).
  { unfold self1. now rewrite roa_signature_state. }
  split; [|split].
  - rewrite S1. now apply W.
  - intros date' hs. unfold hs, ROASigner.headers.
    pose proof (roa_signature_state accept_json self1 date') as St.
    destruct (ROASigner.signature accept_json self1 date') as [str s2].
    cbn [snd] in St. cbn [fst snd ROASigner.with_headers ROASigner._headers].
    split; [reflexivity|].
    assert (Sg : ROASigner.signer self1 = ROASigner.signer self).
    { unfold self1. now rewrite roa_signature_state. }
    pose proof (W self1 date' Sg) as H.
    assert (Eh : ROASigner._headers s2
                 = ROASigner._headers
                     (snd (ROASigner._refresh_sign_parameters accept_json
                             self1 date'))) by now rewrite St.
    rewrite <- Eh in H. destruct H as (H1 & H2 & H3 & H4).
    unfold written. rewrite !dict_get_set. cbn. auto.
  - intros Hocc. destruct (occurs_rsplit1 _ _ Hocc) as (path & f & Hr).
    exists path, f. split; [exact Hr|].
    assert (Q : Request._query_params (ROASigner.request self1)
                = dict_set f None
                    (Request._query_params (ROASigner.request self))).
    { unfold self1. rewrite roa_signature_state.
      cbn [ROASigner.with_request ROASigner.request
             Request.with_query_params Request._query_params].
      unfold ROASigner._build_canonical_resource. now rewrite Hr. }
    assert (U : ROASigner._uri self1 = ROASigner._uri self).
    { unfold self1. now rewrite roa_signature_state. }
    split; [exact Q|]. split.
    + now rewrite Q, dict_get_set, String.eqb_refl.
    + destruct (dict_get (Request._query_params (ROASigner.request self)) f)
        as [v|] eqn:Hg.
      * rewrite (params_set_none self self1 f v U Q Hg). split.
        -- intros E. exists v. auto.
        -- intros (v' & Hv' & E). now injection Hv' as <-.
      * split.
        -- intros Heq.
           assert (L : String.length (ROASigner.params self)
                       < String.length (ROASigner.params self1)).
           { apply (params_longer self self1 f); [exact U|].
             rewrite Q. now apply dict_set_absent. }
           rewrite Heq in L. lia.
        -- intros (v & Hv & _). discriminate Hv.
Qed.

Lemma C10_witness :
  let self :=
    built no_roa_signer
      (roa_signer "/clusters/[ClusterId]/services?verbose"
         [("b", Some "2"); ("verbose", Some "1")]) in
  let self1 := snd (ROASigner.signature application_json self date1) in
  Request._query_params (ROASigner.request self1)
  = [("b", Some "2"); ("verbose", None)]
  /\ ROASigner.params self = "/clusters/c-1/services?verbose?b=2&verbose=1"
  /\ ROASigner.params self1 = "/clusters/c-1/services?verbose?b=2&verbose=None"
  /\ ROASigner.params self1 <> ROASigner.params self.
Proof.
  intros self self1.
  destruct (proj2 (proj2 (C10_signature_is_not_read_only application_json
                            self date1)))
    as (path & f & Hr & Hq & _ & Hne).
  - vm_compute. repeat first [left; reflexivity | right].
  - vm_compute in Hr. injection Hr as <- <-.
    split; [exact Hq|]. split; [reflexivity|]. split; [reflexivity|].
    intros E. apply Hne in E as (v & Hv & E).
    vm_compute in Hv. injection Hv as <-. discriminate E.
Defined.
End ComposerSpec.

(** ** Further properties of the endpoint resolver *)

Module EndpointExtra.
Import Py PyFacts Endpoint EndpointFacts EndpointSamples.

#[local] Arguments String.append !_ _ / : simpl nomatch.

(** The loop stores under the key it was given and nowhere else. *)
Lemma scan_endpoints_other key t items st k :
  k <> key ->
  endpoints_data (snd (scan_endpoints key t items st)) !! k
  = endpoints_data st !! k.
Proof.
  intros Hk. induction items as [|i items IH]; simpl; [reflexivity|].
  destruct (item_selected t i); simpl; [|exact IH].
  now apply lookup_insert_ne.
Qed.

(** After the loop and the store that follows it when nothing was found,
    the key holds a value. *)
Lemma scan_endpoints_stores key t items st :
  let '(found, st') := scan_endpoints key t items st in
  if found then is_Some (endpoints_data st' !! key) else st' = st.
Proof.
  induction items as [|i items IH]; simpl; [reflexivity|].
  destruct (item_selected t i); [|exact IH].
  rewrite put_endpoint_entry_lookup. eauto.
Qed.

Section WithService.
Variable fetch : World -> FetchArgs -> FetchResult.

(** [_call_location_service] stores under its key only. *)
Lemma call_location_service_other st w key request r st' w' k :
  _call_location_service fetch st w key request = (r, st', w') ->
  k <> key ->
  endpoints_data st' !! k = endpoints_data st !! k.
Proof.
  unfold _call_location_service. intros H Hk.
  destruct (fetch w (fetch_args st request)) as [eps|e|[e | n |]].
  - pose proof (scan_endpoints_other key (endpoint_type request) eps
                  (add_valid (product_code_lower request) (region_id request) st)
                  k Hk) as Hs.
    destruct (scan_endpoints _ _ _ _) as [found st2]; simpl in *.
    destruct found; simpl in H; inversion H; subst; simpl; [exact Hs|].
    rewrite lookup_insert_ne by congruence. exact Hs.
  - inversion H; subst; reflexivity.
  - destruct (is_invalid_region e); [|destruct (is_illegal_parameter e)];
      inversion H; subst; simpl; try reflexivity;
      now apply lookup_insert_ne.
  - inversion H; subst; reflexivity.
  - inversion H; subst; reflexivity.
Qed.

(** The three ways [_call_location_service] returns normally. *)
Lemma call_location_service_returns st w key request u st' w' :
  _call_location_service fetch st w key request = (Return u, st', w') ->
  (region_id request ∈ _invalid_region_ids st'
   /\ endpoints_data st' !! key = Some PNone)
  \/ (product_code_lower request ∈ _invalid_product_codes st'
      /\ endpoints_data st' !! key = Some PNone)
  \/ (_invalid_region_ids st' = _invalid_region_ids st
      /\ _invalid_product_codes st' = _invalid_product_codes st
      /\ is_Some (endpoints_data st' !! key)
      /\ exists eps, fetch w (fetch_args st request) = FetchOk eps).
Proof.
  unfold _call_location_service. intros H.
  destruct (fetch w (fetch_args st request)) as [eps|e|[e | n |]] eqn:Hf;
    [|inversion H|..].
  - right. right.
    pose proof (scan_endpoints_frame key (endpoint_type request) eps
                  (add_valid (product_code_lower request) (region_id request) st))
      as (Hr & Hp & _).
    pose proof (scan_endpoints_stores key (endpoint_type request) eps
                  (add_valid (product_code_lower request) (region_id request) st))
      as Hs.
    destruct (scan_endpoints _ _ _ _) as [found st2]; simpl in *.
    destruct found; simpl in H; inversion H; subst; simpl.
    + repeat split; eauto.
    + rewrite lookup_insert_eq. repeat split; eauto.
  - destruct (is_invalid_region e); [|destruct (is_illegal_parameter e)];
      inversion H; subst; simpl.
    + left. split; [set_solver | apply lookup_insert_eq].
    + right. left. split; [set_solver | apply lookup_insert_eq].
  - inversion H.
  - inversion H.
Qed.

End WithService.

(** X1.  One call of [resolve] calls the describe-endpoint service at most
    once, and when it does, with the region id, the endpoint type and the
    location-service code of the request and the location-service host of
    the resolver. *)
Theorem resolve_at_most_one_call fetch st w request :
  snd (resolve fetch st w request) = w
  \/ snd (resolve fetch st w request)
     = w ++ [ {| fa_region_id := region_id request;
                 fa_endpoint_type := endpoint_type request;
                 fa_location_service_code := location_service_code request;
                 fa_location_endpoint := _location_service_endpoint st |} ].
Proof.
  destruct (resolve fetch st w request) as [[r st'] w'] eqn:H. simpl.
  apply resolve_inv in H as [(_ & -> & _)|H]; [now left|].
  destruct H as (_ & _ & _ & key & r0 & _ & _ & Hc & _).
  apply call_location_service_grows in Hc as [-> _]. now right.
Qed.

(** X2.  Whatever requests are resolved and whatever the service answers,
    an entry of the cache is never removed nor overwritten. *)
Theorem cache_entries_are_permanent fetch requests : forall st w k v,
  endpoints_data st !! k = Some v ->
  endpoints_data (fst (resolve_all fetch st w requests)) !! k = Some v.
Proof.
  induction requests as [|rq rest IH]; simpl; intros st w k v Hk; [exact Hk|].
  destruct (resolve fetch st w rq) as [[r st1] w1] eqn:Hr.
  apply IH.
  apply resolve_inv in Hr as [(-> & _ & _)|Hr]; [exact Hk|].
  destruct Hr as (_ & _ & _ & key & r0 & _ & Hnone & Hc & _).
  rewrite (call_location_service_other fetch _ _ _ _ _ _ _ k Hc); [exact Hk|].
  intros ->. congruence.
Qed.

Lemma cache_entries_are_permanent_witness :
  endpoints_data
    (fst (resolve_all stub_service
            (fst (resolve_all stub_service init [] [req_ecs])) []
            [req_rds; req_oss; req_ecs]))
    !! "ecs.ecs.cn-hangzhou.openAPI"
  = Some (PStr "ecs-cn-hangzhou.aliyuncs.com").
Proof.
  apply (cache_entries_are_permanent stub_service [req_rds; req_oss; req_ecs]).
  vm_compute. reflexivity.
Defined.

(** X3.  A [resolve] that returned is remembered: the same request resolved
    again right after it gets the same answer, without a call to the
    service and without a change of the resolver. *)
Theorem resolve_again_is_served_locally fetch st w request v st' w' :
  resolve fetch st w request = (Return v, st', w') ->
  resolve fetch st' w' request = (Return v, st', w').
Proof.
  intros H. pose proof H as H0.
  apply resolve_inv in H as [(-> & -> & _)|H].
  - (* nothing changed, so this is the call made before *)
    exact H0.
  - destruct H as (Hl & Hp & Hr & key & r0 & Hkey & Hnone & Hc & Hv).
    destruct r0 as [u|e]; [|discriminate Hv]. injection Hv as ->.
    apply call_location_service_returns in Hc
      as [[Hin Hs]|[[Hin Hs]|(Er & Ep & [v Hs] & _)]].
    + rewrite Hs. simpl. apply resolve_invalid. now left.
    + rewrite Hs. simpl. apply resolve_invalid. now right.
    + rewrite Hs. simpl. unfold resolve. rewrite Hl. simpl.
      rewrite Er, Ep.
      destruct (decide _) as [|_]; [tauto|].
      destruct (decide _) as [|_]; [tauto|].
      now rewrite Hkey, Hs.
Qed.

Lemma resolve_again_is_served_locally_witness :
  let '(r, st', w') := resolve stub_service init [] req_ecs in
  resolve stub_service st' w' req_ecs
  = (Return (PStr "ecs-cn-hangzhou.aliyuncs.com"), st', w').
Proof.
  destruct (resolve stub_service init [] req_ecs) as [[r st'] w'] eqn:E.
  apply (resolve_again_is_served_locally stub_service init [] req_ecs).
  rewrite E. vm_compute in E. injection E as <- _ _. reflexivity.
Defined.

(** X4.  A failure of [resolve] is not remembered.  When [resolve]
    raises, it has just called the service, once, and one of two things
    happened.  The service raised that exception, and the resolver is
    exactly as it was.  Or the service answered with a response that lines
    103-115 cannot read, which raise it, and then the lower-cased product
    code and the region id of the request were recorded as valid by lines
    100-101 and nothing else changed.  In both cases the cache and the two
    invalid sets are as they were, so that the same request, tried again,
    calls the service again. *)
Theorem resolve_raise_is_not_remembered fetch st w request e st' w' :
  resolve fetch st w request = (Raise e, st', w') ->
  w' = w ++ [fetch_args st request]
  /\ (fetch w (fetch_args st request) = FetchRaise e /\ st' = st
      \/ fetch w (fetch_args st request) = FetchMalformed e
         /\ st' = add_valid (product_code_lower request) (region_id request) st)
  /\ endpoints_data st' = endpoints_data st
  /\ _invalid_product_codes st' = _invalid_product_codes st
  /\ _invalid_region_ids st' = _invalid_region_ids st
  /\ _location_service_endpoint st' = _location_service_endpoint st
  /\ snd (resolve fetch st' w' request) = w' ++ [fetch_args st request].
Proof.
  intros H. apply resolve_inv in H as [(_ & _ & v & Hv)|H]; [discriminate Hv|].
  destruct H as (Hl & Hp & Hi & key & r0 & Hk & Hm & Hc & Hr).
  destruct r0 as [u|e0]; [discriminate Hr|]. injection Hr as Hr. subst e0.
  assert (A : w' = w ++ [fetch_args st request]
              /\ (fetch w (fetch_args st request) = FetchRaise e /\ st' = st
                  \/ fetch w (fetch_args st request) = FetchMalformed e
                     /\ st' = add_valid (product_code_lower request)
                                (region_id request) st)).
  { unfold _call_location_service in Hc.
    destruct (fetch w (fetch_args st request)) as [eps|e'|[s | n |]].
    - destruct (scan_endpoints _ _ _ _) as [found st2].
      destruct found; discriminate Hc.
    - inversion Hc; subst. auto.
    - destruct (is_invalid_region s); [discriminate Hc|].
      destruct (is_illegal_parameter s); [discriminate Hc|].
      inversion Hc; subst. auto.
    - inversion Hc; subst. auto.
    - inversion Hc; subst. auto. }
  destruct A as [Hw A]. split; [exact Hw|]. split; [exact A|].
  assert (B : endpoints_data st' = endpoints_data st
              /\ _invalid_product_codes st' = _invalid_product_codes st
              /\ _invalid_region_ids st' = _invalid_region_ids st
              /\ _location_service_endpoint st' = _location_service_endpoint st)
    by (destruct A as [[_ ->]|[_ ->]]; auto).
  destruct B as (B1 & B2 & B3 & B4).
  split; [exact B1|]. split; [exact B2|]. split; [exact B3|].
  split; [exact B4|].
  unfold resolve. rewrite Hl, B2, B3, Hk, B1, Hm. cbn [negb].
  destruct (decide _) as [|_]; [tauto|].
  destruct (decide _) as [|_]; [tauto|].
  unfold _get_endpoint_from_location_service. rewrite B1, Hm.
  destruct (_call_location_service fetch st' w' key request)
    as [[r1 st1] w1] eqn:Hc1.
  apply call_location_service_grows in Hc1 as (-> & _).
  replace (fetch_args st' request) with (fetch_args st request)
    by (unfold fetch_args; now rewrite B4).
  destruct r1; reflexivity.
Qed.

Lemma resolve_raise_is_not_remembered_witness :
  let st' := add_valid "ram" "cn-hangzhou" init in
  let w' := [fetch_args init req_ram] in
  resolve stub_service init [] req_ram = (Raise (OtherExc "KeyError"), st', w')
  /\ endpoints_data st' = endpoints_data init
  /\ snd (resolve stub_service st' w' req_ram)
     = [fetch_args init req_ram; fetch_args init req_ram].
Proof.
  intros st' w'.
  assert (H : resolve stub_service init [] req_ram
              = (Raise (OtherExc "KeyError"), st', w'))
    by (vm_compute; reflexivity).
  split; [exact H|].
  pose proof (resolve_raise_is_not_remembered stub_service init [] req_ram
                (OtherExc "KeyError") st' w' H) as (_ & _ & B1 & _ & _ & _ & R).
  split; [exact B1 | exact R].
Defined.

(** The loop leaves the sets of valid codes alone. *)
Lemma scan_endpoints_valid key t items st :
  _valid_product_codes (snd (scan_endpoints key t items st))
  = _valid_product_codes st
  /\ _valid_region_ids (snd (scan_endpoints key t items st))
     = _valid_region_ids st.
Proof.
  induction items as [|i items IH]; simpl; [auto|].
  destruct (item_selected t i); simpl; auto.
Qed.

(** X5.  When the service answers a call of [resolve] with a response,
    whatever the response lists, the lower-cased product code and the region
    id of the request are recorded as valid, the two invalid sets are left
    as they were, and [resolve] returns the value it has stored under the
    key of the request. *)
Theorem response_marks_codes_valid fetch st w request eps r st' w' :
  resolve fetch st w request = (r, st', w') ->
  w' <> w ->
  fetch w (fetch_args st request) = FetchOk eps ->
  lower (product_code request) ∈ _valid_product_codes st'
  /\ region_id request ∈ _valid_region_ids st'
  /\ _invalid_product_codes st' = _invalid_product_codes st
  /\ _invalid_region_ids st' = _invalid_region_ids st
  /\ exists key v,
       get_endpoint_key_from_request request = Return key
       /\ endpoints_data st' !! key = Some v
       /\ r = Return v.
Proof.
  intros H Hw Hf.
  destruct (resolve_called fetch _ _ _ _ _ _ H Hw)
    as (key & r0 & Hkey & _ & Hc & Hr).
  unfold _call_location_service in Hc. rewrite Hf in Hc.
  set (st1 := add_valid (product_code_lower request) (region_id request) st) in *.
  pose proof (scan_endpoints_frame key (endpoint_type request) eps st1)
    as (Fr & Fp & _).
  pose proof (scan_endpoints_valid key (endpoint_type request) eps st1)
    as (Vp & Vr).
  pose proof (scan_endpoints_stores key (endpoint_type request) eps st1) as Hs.
  destruct (scan_endpoints key (endpoint_type request) eps st1)
    as [found st2]; simpl in *.
  destruct found; simpl in Hc; inversion Hc; subst r0 st' w'; simpl;
    rewrite ?Vp, ?Vr, ?Fr, ?Fp; unfold st1, product_code_lower; simpl.
  - destruct Hs as [v Hs].
    split; [apply elem_of_union_l, elem_of_singleton; reflexivity|].
    split; [apply elem_of_union_l, elem_of_singleton; reflexivity|].
    split; [reflexivity|]. split; [reflexivity|].
    exists key, v. rewrite Hr, Hs. auto.
  - split; [apply elem_of_union_l, elem_of_singleton; reflexivity|].
    split; [apply elem_of_union_l, elem_of_singleton; reflexivity|].
    split; [reflexivity|]. split; [reflexivity|].
    exists key, PNone. rewrite Hr. simpl. rewrite lookup_insert_eq. auto.
Qed.

Lemma response_marks_codes_valid_witness :
  let st' := snd (fst (resolve stub_service init [] req_ecs)) in
  "ecs" ∈ _valid_product_codes st' /\ "cn-hangzhou" ∈ _valid_region_ids st'.
Proof.
  intros st'.
  destruct (response_marks_codes_valid stub_service init [] req_ecs
              [inner_item; ecs_item; later_item]
              (fst (fst (resolve stub_service init [] req_ecs))) st'
              (snd (resolve stub_service init [] req_ecs)))
    as (Hp & Hr & _).
  - vm_compute; reflexivity.
  - vm_compute; discriminate.
  - reflexivity.
  - split; [exact Hp | exact Hr].
Defined.

(** X6.  The two validity queries foretell the guards of [resolve]: when
    [is_product_code_valid] or [is_region_id_valid] answers [False] for a
    request (as both do for a request without location-service code),
    [resolve] returns [None] for it without calling the service; when both
    answer [True], [resolve] gets past its guards and answers from the cache
    or from the service. *)
Theorem validity_queries_foretell_resolve fetch st w request :
  (is_product_code_valid st request = false
   \/ is_region_id_valid st request = false ->
   resolve fetch st w request = (Return PNone, st, w))
  /\ (truthy_opt (location_service_code request) = false ->
      is_product_code_valid st request = false
      /\ is_region_id_valid st request = false)
  /\ (is_product_code_valid st request = true ->
      is_region_id_valid st request = true ->
      exists key,
        get_endpoint_key_from_request request = Return key
        /\ resolve fetch st w request
           = match endpoints_data st !! key with
             | Some v => (Return v, st, w)
             | None => _get_endpoint_from_location_service fetch st w key request
             end).
Proof.
  unfold is_product_code_valid, is_region_id_valid.
  split; [|split].
  - intros H. unfold resolve.
    destruct (truthy_opt (location_service_code request)); simpl; [|reflexivity].
    destruct (decide _) as [|Hp]; [reflexivity|].
    destruct (decide _) as [|Hr]; [reflexivity|].
    destruct H as [H|H]; apply bool_decide_eq_false in H; tauto.
  - intros ->. auto.
  - intros Hp Hr. unfold resolve, get_endpoint_key_from_request.
    destruct (location_service_code request) as [l|] eqn:El; simpl in *;
      [|discriminate Hp].
    destruct (negb (l =? "")%string); simpl in *; [|discriminate Hp].
    apply bool_decide_eq_true in Hp, Hr.
    destruct (decide _) as [|_]; [tauto|].
    destruct (decide _) as [|_]; [tauto|].
    eexists. split; reflexivity.
Qed.

Lemma validity_queries_foretell_resolve_witness :
  let st := fst (resolve_all stub_service init [] [req_rds]) in
  is_region_id_valid st req_ecs = false
  /\ resolve stub_service st [] req_ecs = (Return PNone, st, []).
Proof.
  intros st.
  assert (H : is_region_id_valid st req_ecs = false) by (vm_compute; reflexivity).
  split; [exact H|].
  apply (proj1 (validity_queries_foretell_resolve stub_service st [] req_ecs)).
  right. exact H.
Defined.

(** X7.  [set_location_service_endpoint] changes where the next call goes
    and nothing else: the cache is kept, so a request whose key is cached
    gets the answer it got before, still without a call, and a request that
    does call the service calls it at the new host. *)
Theorem set_location_service_endpoint_keeps_cache fetch endpoint st w request :
  endpoints_data (set_location_service_endpoint endpoint st) = endpoints_data st
  /\ _invalid_product_codes (set_location_service_endpoint endpoint st)
     = _invalid_product_codes st
  /\ _invalid_region_ids (set_location_service_endpoint endpoint st)
     = _invalid_region_ids st
  /\ (forall key v,
        get_endpoint_key_from_request request = Return key ->
        endpoints_data st !! key = Some v ->
        resolve fetch (set_location_service_endpoint endpoint st) w request
        = (fst (fst (resolve fetch st w request)),
           set_location_service_endpoint endpoint st, w))
  /\ (snd (resolve fetch (set_location_service_endpoint endpoint st) w request)
      <> w ->
      exists args,
        snd (resolve fetch (set_location_service_endpoint endpoint st) w request)
        = w ++ [args]
        /\ fa_location_endpoint args = endpoint).
Proof.
  split; [reflexivity|]. split; [reflexivity|]. split; [reflexivity|]. split.
  - intros key v Hk Hv. unfold resolve. simpl.
    destruct (negb _); [reflexivity|].
    destruct (decide _); [reflexivity|].
    destruct (decide _); [reflexivity|].
    rewrite Hk, Hv. reflexivity.
  - intros Hw.
    destruct (resolve fetch (set_location_service_endpoint endpoint st) w request)
      as [[r st'] w'] eqn:H. simpl in *.
    destruct (resolve_called fetch _ _ _ _ _ _ H Hw) as (key & r0 & _ & _ & Hc & _).
    apply call_location_service_grows in Hc as [-> _].
    eexists. split; reflexivity.
Qed.

Lemma set_location_service_endpoint_keeps_cache_witness :
  let st := fst (resolve_all stub_service init [] [req_ecs]) in
  resolve stub_service (set_location_service_endpoint "location.example.com" st)
    [] req_ecs
  = (Return (PStr "ecs-cn-hangzhou.aliyuncs.com"),
     set_location_service_endpoint "location.example.com" st, []).
Proof.
  intros st.
  apply (proj1 (proj2 (proj2 (proj2
           (set_location_service_endpoint_keeps_cache stub_service
              "location.example.com" st [] req_ecs))))
           "ecs.ecs.cn-hangzhou.openAPI" (PStr "ecs-cn-hangzhou.aliyuncs.com"));
    vm_compute; reflexivity.
Defined.

(** X20.  A run of [resolve] calls only ever adds to the record of calls,
    and adds at most one call for each request resolved. *)
Theorem resolve_all_call_bound fetch requests : forall st w,
  exists calls,
    snd (resolve_all fetch st w requests) = w ++ calls
    /\ length calls <= length requests.
Proof.
  induction requests as [|rq rest IH]; intros st w; simpl.
  - exists []. split; [now rewrite app_nil_r | reflexivity].
  - destruct (resolve fetch st w rq) as [[r st1] w1] eqn:H.
    destruct (IH st1 w1) as (calls & -> & Hlen).
    apply resolve_inv in H as [(_ & -> & _)|H].
    + exists calls. split; [reflexivity | lia].
    + destruct H as (_ & _ & _ & key & r0 & _ & _ & Hc & _).
      apply call_location_service_grows in Hc as [-> _].
      exists (fetch_args st rq :: calls).
      split; [now rewrite <- app_assoc | simpl; lia].
Qed.

(** X21.  When the service rejects the call of [resolve] in one of the two
    recognised ways, [resolve] returns [None], the key of the request is
    cached with [None], and exactly one code is recorded: the region id in
    the invalid regions for "InvalidRegionId", the lower-cased product code
    in the invalid products for "Illegal Parameter"; the other invalid set
    and the two valid sets stay as they were. *)
Theorem recognised_rejection_bookkeeping fetch st w request s r st' w' :
  resolve fetch st w request = (r, st', w') ->
  w' <> w ->
  fetch w (fetch_args st request) = FetchRaise (ServerExc s) ->
  (error_code s = "InvalidRegionId"
   /\ error_message s = "The specified region does not exist."
   \/ error_code s = "Illegal Parameter"
      /\ error_message s = "Please check the parameters") ->
  r = Return PNone
  /\ (exists key,
        get_endpoint_key_from_request request = Return key
        /\ endpoints_data st' !! key = Some PNone)
  /\ _valid_product_codes st' = _valid_product_codes st
  /\ _valid_region_ids st' = _valid_region_ids st
  /\ (error_code s = "InvalidRegionId" ->
      _invalid_region_ids st' = {[region_id request]} ∪ _invalid_region_ids st
      /\ _invalid_product_codes st' = _invalid_product_codes st)
  /\ (error_code s = "Illegal Parameter" ->
      _invalid_product_codes st'
      = {[lower (product_code request)]} ∪ _invalid_product_codes st
      /\ _invalid_region_ids st' = _invalid_region_ids st).
Proof.
  intros H Hw Hf Hs.
  destruct (resolve_called fetch _ _ _ _ _ _ H Hw)
    as (key & r0 & Hkey & _ & Hc & Hr).
  destruct Hs as [Hs|Hs].
  - pose proof Hs as [Hcode _]. apply is_invalid_region_spec in Hs.
    rewrite (call_invalid_region fetch st w key request s Hf Hs) in Hc.
    inversion Hc; subst r0 st' w'. simpl in *.
    rewrite lookup_insert_eq in Hr.
    split; [exact Hr|]. split; [exists key; now rewrite lookup_insert_eq|].
    split; [reflexivity|]. split; [reflexivity|]. split; intros E.
    + split; reflexivity.
    + rewrite Hcode in E. discriminate E.
  - pose proof Hs as [Hcode _].
    assert (Hn : is_invalid_region s = false).
    { apply not_true_false. rewrite is_invalid_region_spec.
      intros [E _]. rewrite Hcode in E. discriminate E. }
    apply is_illegal_parameter_spec in Hs.
    rewrite (call_illegal_parameter fetch st w key request s Hf Hn Hs) in Hc.
    inversion Hc; subst r0 st' w'. simpl in *.
    rewrite lookup_insert_eq in Hr.
    split; [exact Hr|]. split; [exists key; now rewrite lookup_insert_eq|].
    split; [reflexivity|]. split; [reflexivity|]. split; intros E.
    + rewrite Hcode in E. discriminate E.
    + split; reflexivity.
Qed.

Lemma recognised_rejection_bookkeeping_witness :
  let '(r, st', w') := resolve stub_service init [] req_oss in
  r = Return PNone
  /\ _invalid_product_codes st' = {[ "oss" ]} ∪ ∅
  /\ _invalid_region_ids st' = ∅.
Proof.
  destruct (resolve stub_service init [] req_oss) as [[r st'] w'] eqn:E.
  destruct (recognised_rejection_bookkeeping stub_service init [] req_oss
              illegal_parameter_exc r st' w' E)
    as (Hr & _ & _ & _ & _ & Hp).
  - vm_compute in E. injection E as _ _ <-. discriminate.
  - reflexivity.
  - right. split; reflexivity.
  - destruct (Hp eq_refl) as [Hp1 Hp2]. repeat split; assumption.
Defined.

(** The key: lower-casing neither makes nor removes a ["."]. *)
Lemma lower_ascii_dot c : lower_ascii c = "."%char <-> c = "."%char.
Proof.
  destruct c as [[] [] [] [] [] [] [] []]; vm_compute;
    split; intros H; solve [reflexivity | discriminate H].
Qed.

Lemma occurs_lower_dot (s : string) : occurs "." (lower s) <-> occurs "." s.
Proof.
  induction s as [|c s IH]; simpl; [tauto|].
  fold (lower s). rewrite IH, lower_ascii_dot. tauto.
Qed.

(** Two texts cut at their first separator are equal part by part. *)
Lemma append_separator_inj c (a b x y : string) :
  ~ occurs c a -> ~ occurs c b ->
  a +:+ String c x = b +:+ String c y ->
  a = b /\ x = y.
Proof.
  revert b. induction a as [|h a IH]; intros [|k b] Ha Hb H; simpl in *.
  - injection H as ->. auto.
  - injection H as <- _. tauto.
  - injection H as -> _. tauto.
  - injection H as -> H. destruct (IH b) as [-> ->]; auto.
Qed.

(** X8.  As long as the product code, the location-service code and the
    region id contain no ["."], the key tells the requests apart: two keys
    are equal only when the lower-cased product codes, the location-service
    codes, the lower-cased region ids and the endpoint types are.  (With a
    ["."] in one of them, different requests can share a key.) *)
Theorem key_separates_dot_free_requests p1 l1 r1 t1 p2 l2 r2 t2 :
  ~ occurs "." p1 -> ~ occurs "." l1 -> ~ occurs "." r1 ->
  ~ occurs "." p2 -> ~ occurs "." l2 -> ~ occurs "." r2 ->
  _make_endpoint_entry_key p1 l1 r1 t1 = _make_endpoint_entry_key p2 l2 r2 t2 ->
  lower p1 = lower p2 /\ l1 = l2 /\ lower r1 = lower r2 /\ t1 = t2.
Proof.
  intros Hp1 Hl1 Hr1 Hp2 Hl2 Hr2 H.
  unfold _make_endpoint_entry_key in H. cbn [join] in H.
  change "." with (String "."%char "") in H. cbn [String.append] in H.
  rewrite <- occurs_lower_dot in Hp1, Hp2, Hr1, Hr2.
  apply append_separator_inj in H as [E1 H]; [|assumption..].
  apply append_separator_inj in H as [E2 H]; [|assumption..].
  apply append_separator_inj in H as [E3 H]; [|assumption..].
  auto.
Qed.

Lemma key_separates_dot_free_requests_witness :
  lower "ECS" = lower "ecs" /\ "ecs" = "ecs"
  /\ lower "CN-Hangzhou" = lower "cn-hangzhou" /\ "openAPI" = "openAPI".
Proof.
  apply (key_separates_dot_free_requests "ECS" "ecs" "CN-Hangzhou" "openAPI"
           "ecs" "ecs" "cn-hangzhou" "openAPI");
    try (vm_compute; intros H; repeat destruct H as [H|H]; try discriminate H;
         exact H).
  reflexivity.
Defined.

(** A ["."] inside a part does let two different requests share a key. *)
Example key_collision :
  _make_endpoint_entry_key "a" ".b" "c" "d"
  = _make_endpoint_entry_key "a" "" "b.c" "d".
Proof. reflexivity. Qed.
End EndpointExtra.

(** ** Further properties of the signers *)

Module ComposerExtra.
Import Py PyFacts PyMoreFacts Composer ComposerClaims ComposerFacts
  ComposerSamples.

#[local] Arguments String.append !_ _ / : simpl nomatch.

(** X9.  What [_calc_signature] appends to the method and ["&%2F&"] is made
    of unreserved characters (ASCII letters, digits, [_], [.], [-], [~]),
    ["/"] and ["%"] only; so it contains none of ["&"], ["="], ["+"],
    ["*"] and the space, whatever the parameters are. *)
Theorem rpc_canonical_query_characters method (params : dict (option string)) :
  exists q,
    RPCSigner._calc_signature method params = (method +:+ "&%2F&") +:+ q
    /\ forall d, occurs d q ->
         (always_safe d = true \/ d = "/"%char \/ d = "%"%char)
         /\ d <> "&"%char /\ d <> "="%char /\ d <> "+"%char
         /\ d <> "*"%char /\ d <> " "%char.
Proof.
  unfold RPCSigner._calc_signature. eexists. split; [reflexivity|].
  intros d H.
  assert (A : always_safe d = true \/ d = "/"%char \/ d = "%"%char).
  { unfold RPCSigner._pop_standard_urlencode at 1 in H.
    apply occurs_replace in H as [H|H].
    { destruct H as [<-|[]]. auto. }
    apply occurs_replace in H as [H|H].
    { destruct H as [<-|[<-|[<-|[]]]]; auto. }
    apply occurs_replace in H as [H|H].
    { destruct H as [<-|[<-|[<-|[]]]]; auto. }
    unfold pathname2url, quote in H. apply occurs_quote_with in H.
    destruct H as [H|[H|H]]; auto.
    apply Ascii.eqb_eq in H. auto. }
  split; [exact A|].
  repeat split; intros ->; destruct A as [A|[A|A]]; discriminate A.
Qed.

Lemma rpc_canonical_query_characters_witness :
  exists q,
    RPCSigner._calc_signature "GET" [("a", Some "b c*~")]
    = ("GET" +:+ "&%2F&") +:+ q
    /\ q = "a%3Db%2520c%252A~"
    /\ "%"%char <> "&"%char.
Proof.
  destruct (rpc_canonical_query_characters "GET" [("a", Some "b c*~")])
    as (q & E & H).
  exists q. split; [exact E|].
  vm_compute in E. injection E as <-.
  split; [reflexivity|].
  apply (H "%"%char). simpl. tauto.
Defined.

(** X10.  The string to sign does not depend on the order in which the
    parameters were put into the mapping: two mappings with the same items
    and no repeated key give the same string. *)
Theorem calc_signature_ignores_insertion_order method
  (d1 d2 : dict (option string)) :
  dict_wf d1 ->
  Permutation d1 d2 ->
  RPCSigner._calc_signature method d1 = RPCSigner._calc_signature method d2.
Proof.
  intros Hwf Hp. unfold RPCSigner._calc_signature.
  now rewrite (sorted_items_permutation d1 d2 Hwf Hp).
Qed.

Lemma calc_signature_ignores_insertion_order_witness :
  RPCSigner._calc_signature "GET"
    [("Version", Some "2014-05-26"); ("Action", Some "DescribeRegions")]
  = RPCSigner._calc_signature "GET"
      [("Action", Some "DescribeRegions"); ("Version", Some "2014-05-26")].
Proof.
  apply calc_signature_ignores_insertion_order.
  - repeat constructor; vm_compute; intros H;
      repeat (apply elem_of_cons in H as [H|H]; [discriminate H|]);
      inversion H.
  - apply perm_swap.
Defined.

(** Stores a key and reads another one. *)
Local Ltac other_key H :=
  repeat match goal with
    | |- context [String.eqb ?a ?k] =>
        destruct (String.eqb_spec a k) as [?E|_];
        [exfalso; apply H; rewrite <- E; simpl; tauto|]
    end.

(** X11.  The constructor of [RPCSigner] writes the protocol parameters
    over whatever the request holds under their names: the version, the
    action name, the format "JSON", the timestamp, the three descriptions
    of the algorithm, the nonce and, when the credentials have one, the
    access-key id.  Every other query parameter of the request is taken
    over as it is. *)
Theorem rpc_constructor_overwrites_reserved_parameters
  c api_request region_id version signer timestamp nonce self :
  RPCSigner.init (Some c) api_request region_id version signer timestamp nonce
  = Return self ->
  let p := RPCSigner.parameters self in
  let q := Request._query_params api_request in
  dict_get p "Version" = Some (Some version)
  /\ dict_get p "Action" = Some (Some (Request.action_name api_request))
  /\ dict_get p "Format" = Some (Some "JSON")
  /\ dict_get p "Timestamp" = Some (Some timestamp)
  /\ dict_get p "SignatureMethod" = Some (Some (signer_name signer))
  /\ dict_get p "SignatureType" = Some (Some (signer_type signer))
  /\ dict_get p "SignatureVersion" = Some (Some (signer_version signer))
  /\ dict_get p "SignatureNonce" = Some (Some nonce)
  /\ dict_get p "AccessKeyId"
     = match access_key_id c with
       | Some id => Some (Some id)
       | None => dict_get q "AccessKeyId"
       end
  /\ forall k,
       ~ In k ["Version"; "Action"; "Format"; "Timestamp"; "SignatureMethod";
               "SignatureType"; "SignatureVersion"; "SignatureNonce";
               "AccessKeyId"] ->
       dict_get p k = dict_get q k.
Proof.
  intros H p q. unfold RPCSigner.init in H. cbn in H. injection H as <-.
  unfold p, q. cbn [RPCSigner.parameters].
  destruct (access_key_id c) as [id|]; rewrite !dict_get_set; cbn;
    repeat split; try reflexivity; intros k Hk; rewrite ?dict_get_set;
    other_key Hk; reflexivity.
Qed.

Lemma rpc_constructor_overwrites_reserved_parameters_witness :
  let p := RPCSigner.parameters
             (built no_rpc_signer (rpc_signer_of access_key describe_instances)) in
  dict_get p "Action" = Some (Some "DescribeInstances")
  /\ dict_get p "RegionId" = Some (Some "cn-hangzhou").
Proof.
  intros p.
  destruct (rpc_constructor_overwrites_reserved_parameters access_key
              describe_instances "cn-hangzhou" "2014-05-26" stub_algorithm
              timestamp1 nonce1
              (built no_rpc_signer (rpc_signer_of access_key describe_instances))
              eq_refl)
    as (_ & Ha & _ & _ & _ & _ & _ & _ & _ & Hk).
  split; [exact Ha|].
  unfold p. rewrite Hk; [reflexivity|].
  simpl. intros H. repeat destruct H as [H|H]; try discriminate H. exact H.
Defined.

(** X12.  At signature time the parameters are merged with this precedence:
    a bearer token of the credentials, then a security token, under the
    names "BearerToken" and "SecurityToken"; then the body parameters of the
    request; then what the constructor left.  In particular a body
    parameter replaces a protocol parameter of the same name. *)
Theorem rpc_merge_precedence (self : RPCSigner.t) (k : string) :
  dict_wf (Request._body_params (RPCSigner.request self)) ->
  let merged := RPCSigner.parameters (snd (RPCSigner.signature self)) in
  let c := RPCSigner.credentials self in
  dict_get merged k
  = match (if String.eqb "BearerToken" k then bearer_token c else None) with
    | Some token => Some (Some token)
    | None =>
        match (if String.eqb "SecurityToken" k then security_token c else None) with
        | Some token => Some (Some token)
        | None =>
            match dict_get (Request._body_params (RPCSigner.request self)) k with
            | Some v => Some v
            | None => dict_get (RPCSigner.parameters self) k
            end
        end
    end.
Proof.
  intros Hwf merged c. unfold merged, c, RPCSigner.signature.
  cbn [snd RPCSigner.with_parameters RPCSigner.parameters].
  assert (B : dict_get
                (dict_update (RPCSigner.parameters self)
                   (Request._body_params (RPCSigner.request self))) k
              = match dict_get (Request._body_params (RPCSigner.request self)) k with
                | Some v => Some v
                | None => dict_get (RPCSigner.parameters self) k
                end).
  { now rewrite dict_get_update, last_assigned_wf. }
  destruct (bearer_token (RPCSigner.credentials self)) as [bt|],
           (security_token (RPCSigner.credentials self)) as [stk|];
    rewrite ?dict_get_set, B;
    destruct (String.eqb "BearerToken" k), (String.eqb "SecurityToken" k);
    reflexivity.
Qed.

Lemma rpc_merge_precedence_witness :
  let self := built no_rpc_signer (rpc_signer_of sts_key describe_instances) in
  let merged := RPCSigner.parameters (snd (RPCSigner.signature self)) in
  dict_get merged "PageSize" = Some (Some "50")
  /\ dict_get merged "SecurityToken" = Some (Some "sts token").
Proof.
  intros self merged.
  assert (W : dict_wf (Request._body_params (RPCSigner.request self))).
  { repeat constructor; vm_compute; intros H;
      repeat (apply elem_of_cons in H as [H|H]; [discriminate H|]);
      inversion H. }
  split.
  - unfold merged. rewrite (rpc_merge_precedence self "PageSize" W). reflexivity.
  - unfold merged. rewrite (rpc_merge_precedence self "SecurityToken" W).
    reflexivity.
Defined.

(** X13.  [params] signs the string to sign with the access-key secret
    followed by ["&"], stores the result under "Signature" in the signer's
    parameters and returns ["?"] followed by the form-encoding of all of
    them.  The entry stays: every later string to sign of this signer is
    computed over parameters that contain "Signature". *)
Theorem rpc_params_stores_signature (self : RPCSigner.t) :
  let sig :=
    sign_string (RPCSigner.signer self) (fst (RPCSigner.signature self))
      (access_key_secret (RPCSigner.credentials self) +:+ "&") in
  let self1 := snd (RPCSigner.params self) in
  RPCSigner.parameters self1
  = dict_set "Signature" (Some sig)
      (RPCSigner.parameters (snd (RPCSigner.signature self)))
  /\ dict_get (RPCSigner.parameters self1) "Signature" = Some (Some sig)
  /\ fst (RPCSigner.params self) = "?" +:+ urlencode (RPCSigner.parameters self1)
  /\ dict_get (RPCSigner.parameters (snd (RPCSigner.signature self1)))
       "Signature" <> None.
Proof.
  intros sig self1.
  assert (E : RPCSigner.parameters self1
              = dict_set "Signature" (Some sig)
                  (RPCSigner.parameters (snd (RPCSigner.signature self)))).
  { unfold self1, sig, RPCSigner.params.
    destruct (RPCSigner.signature self) as [str s1] eqn:Es.
    rewrite rpc_signature_unfold in Es. injection Es as <- <-. reflexivity. }
  assert (G : dict_get (RPCSigner.parameters self1) "Signature"
              = Some (Some sig)).
  { now rewrite E, dict_get_set. }
  split; [exact E|]. split; [exact G|]. split.
  - unfold self1, RPCSigner.params.
    destruct (RPCSigner.signature self) as [str s1]. reflexivity.
  - rewrite rpc_signature_unfold. cbn [snd RPCSigner.with_parameters
                                        RPCSigner.parameters].
    rewrite dict_get_update. rewrite G.
    destruct (last_assigned _ _); discriminate.
Qed.

(** X14.  The constructor of [ROASigner] copies the headers of the request
    and writes over the copy: "x-acs-version" and "x-acs-region-id" always;
    "Content-MD5", the checksum of the body, when the request has a body;
    "x-acs-security-token" and "x-acs-bearer-token" when the credentials
    have these tokens.  Every other header, and each of the last three when
    its condition fails, is the one of the request. *)
Theorem roa_constructor_headers md5_sum c api_request region_id version
  signer self :
  ROASigner.init md5_sum (Some c) api_request region_id version signer
  = Return self ->
  let h := ROASigner._headers self in
  let h0 := Request._headers api_request in
  dict_get h "x-acs-version" = Some version
  /\ dict_get h "x-acs-region-id" = Some region_id
  /\ dict_get h "Content-MD5"
     = match Request._content api_request with
       | Some content => Some (md5_sum content)
       | None => dict_get h0 "Content-MD5"
       end
  /\ dict_get h "x-acs-security-token"
     = match security_token c with
       | Some token => Some token
       | None => dict_get h0 "x-acs-security-token"
       end
  /\ dict_get h "x-acs-bearer-token"
     = match bearer_token c with
       | Some token => Some token
       | None => dict_get h0 "x-acs-bearer-token"
       end
  /\ forall k,
       ~ In k ["x-acs-version"; "x-acs-region-id"; "Content-MD5";
               "x-acs-security-token"; "x-acs-bearer-token"] ->
       dict_get h k = dict_get h0 k.
Proof.
  intros H h h0. unfold ROASigner.init in H. cbn in H. injection H as <-.
  unfold h, h0. cbn [ROASigner._headers].
  destruct (Request._content api_request) as [content|],
           (security_token c) as [stk|], (bearer_token c) as [bt|];
    rewrite !dict_get_set; cbn;
    repeat split; try reflexivity; intros k Hk; rewrite ?dict_get_set;
    other_key Hk; reflexivity.
Qed.

Lemma roa_constructor_headers_witness :
  let h := ROASigner._headers
             (built no_roa_signer
                (ROASigner.init stub_md5_sum (Some access_key) put_object
                   "cn-hangzhou" "2015-12-15" stub_algorithm)) in
  dict_get h "x-acs-version" = Some "2015-12-15"
  /\ dict_get h "Content-MD5" = Some "md5(payload)"
  /\ dict_get h "User-Agent" = Some "sdk".
Proof.
  intros h.
  destruct (roa_constructor_headers stub_md5_sum access_key put_object
              "cn-hangzhou" "2015-12-15" stub_algorithm
              (built no_roa_signer
                 (ROASigner.init stub_md5_sum (Some access_key) put_object
                    "cn-hangzhou" "2015-12-15" stub_algorithm))
              eq_refl)
    as (Hv & _ & Hm & _ & _ & Hk).
  split; [exact Hv|]. split; [exact Hm|].
  unfold h. rewrite Hk; [reflexivity|].
  simpl. intros H. repeat destruct H as [H|H]; try discriminate H. exact H.
Defined.

(** X15.  [_replace_occupied_parameters] leaves a pattern without ["["] as
    it is, whatever the path parameters; and with one path parameter it
    puts the value in the place of the placeholder, the text around it, if
    free of ["["], being kept. *)
Theorem replace_occupied_parameters_substitutes (api_request : Request.t) :
  (~ occurs "[" (Request.uri_pattern api_request) ->
   ROASigner._replace_occupied_parameters api_request
   = Request.uri_pattern api_request)
  /\ (forall k v a b,
        Request.path_params api_request = [(k, v)] ->
        Request.uri_pattern api_request = a +:+ "[" +:+ k +:+ "]" +:+ b ->
        ~ occurs "[" a -> ~ occurs "[" b ->
        ROASigner._replace_occupied_parameters api_request = a +:+ v +:+ b).
Proof.
  unfold ROASigner._replace_occupied_parameters. split.
  - intros H.
    induction (Request.path_params api_request) as [|[k v] l IH]; simpl;
      [reflexivity|].
    unfold replace. cbn [String.append].
    now rewrite replace_from_absent.
  - intros k v a b -> -> Ha Hb. cbn [fold_left fst snd].
    replace (a +:+ "[" +:+ k +:+ "]" +:+ b)
      with (a +:+ ("[" +:+ k +:+ "]") +:+ b)
      by now rewrite !append_assoc.
    unfold replace. cbn [String.append].
    rewrite replace_from_prefix by exact Ha. f_equal.
    change (String "[" ((k +:+ "]") +:+ b))
      with (String "[" (k +:+ "]") +:+ b).
    rewrite replace_from_here. f_equal. now apply replace_from_absent.
Qed.

Lemma replace_occupied_parameters_substitutes_witness :
  ROASigner._replace_occupied_parameters
    (roa_request "/clusters/[ClusterId]/services" [])
  = "/clusters/c-1/services".
Proof.
  apply (proj2 (replace_occupied_parameters_substitutes
                  (roa_request "/clusters/[ClusterId]/services" []))
           "ClusterId" "c-1" "/clusters/" "/services");
    try reflexivity;
    vm_compute; intros H; repeat destruct H as [H|H]; try discriminate H;
    exact H.
Defined.

(** The round of the first loop of [_build_canonical_headers]. *)
Lemma fold_canonical_headers_set header_begin k v (h : dict string) :
  contains header_begin (lower k) = false ->
  forall m : dict string,
    fold_left
      (fun m kv =>
         if contains header_begin (lower (fst kv))
         then dict_set (lower (fst kv)) (snd kv) m
         else m)
      (dict_set k v h) m
    = fold_left
        (fun m kv =>
           if contains header_begin (lower (fst kv))
           then dict_set (lower (fst kv)) (snd kv) m
           else m)
        h m.
Proof.
  intros Hk. induction h as [|[k0 v0] h IH]; intros m; simpl.
  - now rewrite Hk.
  - destruct (String.eqb_spec k0 k) as [->|Hne]; simpl.
    + now rewrite Hk.
    + apply IH.
Qed.

(** X16.  A header whose lower-cased name does not contain the prefix has no
    part in the canonical headers block: storing it, or changing its value,
    leaves the block as it is.  "Authorization" is such a header for the
    prefix "x-acs-". *)
Theorem canonical_headers_ignore_other_headers header_begin k v
  (headers : dict string) :
  contains header_begin (lower k) = false ->
  ROASigner._build_canonical_headers (dict_set k v headers) header_begin
  = ROASigner._build_canonical_headers headers header_begin.
Proof.
  intros Hk. unfold ROASigner._build_canonical_headers.
  now rewrite fold_canonical_headers_set.
Qed.

Lemma canonical_headers_ignore_other_headers_witness :
  ROASigner._build_canonical_headers
    (dict_set "Authorization" "acs AKID:mac"
       [("X-Acs-Trace", "t1"); ("x-acs-version", "2015-12-15")]) "x-acs-"
  = ROASigner._build_canonical_headers
      [("X-Acs-Trace", "t1"); ("x-acs-version", "2015-12-15")] "x-acs-".
Proof.
  apply canonical_headers_ignore_other_headers. reflexivity.
Defined.

(** The string to sign, read off the headers that [signature] leaves in the
    signer. *)
Lemma roa_signature_text accept_json self date :
  fst (ROASigner.signature accept_json self date)
  = spec_roa_canonical_string
      (ROASigner._headers (snd (ROASigner.signature accept_json self date)))
      (Request.method (ROASigner.request self)) (ROASigner._uri self)
      (Request._query_params (ROASigner.request self)).
Proof.
  rewrite roa_signature_state.
  unfold ROASigner.signature, spec_roa_canonical_string.
  destruct (ROASigner._refresh_sign_parameters accept_json self date)
    as [h s1] eqn:E.
  unfold ROASigner._refresh_sign_parameters in E. injection E as <- <-.
  cbn [snd ROASigner.with_headers ROASigner.with_request ROASigner._headers
         ROASigner.request ROASigner._uri].
  destruct (ROASigner._build_canonical_resource _ _) as [res q'].
  cbn [fst fold_left ROASigner.interesting_headers].
  set (h4 := dict_set "x-acs-signature-version" _ _).
  destruct (dict_get h4 "Accept"), (dict_get h4 "Content-MD5"),
           (dict_get h4 "Content-Type"), (dict_get h4 "Date");
    cbn [default String.append]; rewrite ?append_assoc, ?append_empty_r;
    reflexivity.
Qed.

(** X17.  The string to sign of [ROASigner] is the upper-cased method; the
    JSON accept type; the "Content-MD5" and the "Content-Type" of the
    signer's headers, empty when absent; the date just read; each followed
    by a line feed; then the canonical headers of the refreshed headers and
    the canonical resource.  The "Accept" and "Date" of the request never
    get into it. *)
Theorem roa_string_to_sign accept_json (self : ROASigner.t) date :
  fst (ROASigner.signature accept_json self date)
  = upper (Request.method (ROASigner.request self)) +:+ HEADER_SEPARATOR
    +:+ accept_json +:+ HEADER_SEPARATOR
    +:+ default "" (dict_get (ROASigner._headers self) "Content-MD5")
    +:+ HEADER_SEPARATOR
    +:+ default "" (dict_get (ROASigner._headers self) "Content-Type")
    +:+ HEADER_SEPARATOR
    +:+ date +:+ HEADER_SEPARATOR
    +:+ ROASigner._build_canonical_headers
          (ROASigner._headers (snd (ROASigner.signature accept_json self date)))
          "x-acs-"
    +:+ fst (ROASigner._build_canonical_resource (ROASigner._uri self)
               (Request._query_params (ROASigner.request self))).
Proof.
  rewrite roa_signature_text. unfold spec_roa_canonical_string.
  rewrite roa_signature_state.
  cbn [ROASigner.with_request ROASigner._headers].
  unfold ROASigner._refresh_sign_parameters.
  cbn [snd ROASigner.with_headers ROASigner._headers].
  rewrite !dict_get_set. cbn. reflexivity.
Qed.

(** When the four headers are there already with these values,
    [_refresh_sign_parameters] changes nothing. *)
Lemma refresh_sign_parameters_noop accept_json (self : ROASigner.t) date :
  dict_get (ROASigner._headers self) "Date" = Some date ->
  dict_get (ROASigner._headers self) "Accept" = Some accept_json ->
  dict_get (ROASigner._headers self) "x-acs-signature-method"
  = Some (signer_name (ROASigner.signer self)) ->
  dict_get (ROASigner._headers self) "x-acs-signature-version"
  = Some (signer_version (ROASigner.signer self)) ->
  ROASigner._refresh_sign_parameters accept_json self date
  = (ROASigner._headers self, self).
Proof.
  intros H1 H2 H3 H4. unfold ROASigner._refresh_sign_parameters.
  rewrite (dict_set_same _ _ _ H1), (dict_set_same _ _ _ H2),
    (dict_set_same _ _ _ H3), (dict_set_same _ _ _ H4).
  destruct self; reflexivity.
Qed.

(** X18.  [headers] returns the signer's headers with "Authorization" set to
    ["acs "], the access-key id, [":"] and the signature of the string to
    sign under the access-key secret.  Evaluated again under the same date
    it returns the same mapping and leaves the signer as it is: the
    "Authorization" it has stored is not part of what it signs. *)
Theorem roa_headers_authorization accept_json (self : ROASigner.t) date :
  let hs := ROASigner.headers accept_json self date in
  dict_get (fst hs) "Authorization"
  = Some ((("acs " +:+ str (access_key_id (ROASigner.credentials self))) +:+ ":")
          +:+ sign_string (ROASigner.signer self)
                (fst (ROASigner.signature accept_json self date))
                (access_key_secret (ROASigner.credentials self)))
  /\ ROASigner.headers accept_json (snd hs) date = hs.
Proof.
  intros hs.
  pose proof (roa_signature_state accept_json self date) as St.
  pose proof (roa_signature_text accept_json self date) as Tx.
  pose proof (C := build_canonical_resource_again (ROASigner._uri self)
                     (Request._query_params (ROASigner.request self))).
  unfold hs, ROASigner.headers.
  destruct (ROASigner.signature accept_json self date) as [txt sg] eqn:Es.
  cbn [fst snd] in *.
  set (auth := (("acs " +:+ str (access_key_id (ROASigner.credentials sg)))
                +:+ ":")
               +:+ sign_string (ROASigner.signer sg) txt
                     (access_key_secret (ROASigner.credentials sg))).
  set (H := dict_set "Authorization" auth (ROASigner._headers sg)).
  assert (Ec : ROASigner.credentials sg = ROASigner.credentials self)
    by now rewrite St.
  assert (Eg : ROASigner.signer sg = ROASigner.signer self) by now rewrite St.
  split.
  { unfold H. rewrite dict_get_set. cbn. unfold auth. now rewrite Ec, Eg. }
  (* the four headers are in [H] *)
  assert (Hd : dict_get H "Date" = Some date
               /\ dict_get H "Accept" = Some accept_json
               /\ dict_get H "x-acs-signature-method"
                  = Some (signer_name (ROASigner.signer self))
               /\ dict_get H "x-acs-signature-version"
                  = Some (signer_version (ROASigner.signer self))).
  { unfold H. rewrite St. unfold ROASigner._refresh_sign_parameters.
    cbn [snd ROASigner.with_request ROASigner.with_headers ROASigner._headers].
    rewrite !dict_get_set. cbn. auto. }
  destruct Hd as (D1 & D2 & D3 & D4).
  set (s1 := ROASigner.with_headers H sg).
  assert (R : ROASigner._refresh_sign_parameters accept_json s1 date = (H, s1)).
  { apply (refresh_sign_parameters_noop accept_json s1 date); unfold s1;
      cbn [ROASigner.with_headers ROASigner._headers ROASigner.signer];
      rewrite ?Eg; assumption. }
  (* the request of [sg] has been through the resource block already *)
  assert (Q : ROASigner._build_canonical_resource (ROASigner._uri s1)
                (Request._query_params (ROASigner.request s1))
              = ROASigner._build_canonical_resource (ROASigner._uri self)
                  (Request._query_params (ROASigner.request self))).
  { unfold s1. rewrite St.
    cbn [ROASigner.with_headers ROASigner.with_request ROASigner._uri
           ROASigner.request Request.with_query_params Request._query_params].
    unfold ROASigner._refresh_sign_parameters.
    cbn [snd ROASigner.with_headers ROASigner._uri]. exact C. }
  assert (S1 : snd (ROASigner.signature accept_json s1 date) = s1).
  { rewrite roa_signature_state, R, Q. cbn [snd].
    unfold s1. rewrite St.
    cbn [ROASigner.with_headers ROASigner.with_request ROASigner.request
           Request.with_query_params].
    destruct self as [c0 r0 rg vs sgn h0 u0]. destruct r0. reflexivity. }
  assert (T1 : fst (ROASigner.signature accept_json s1 date) = txt).
  { rewrite roa_signature_text, S1, Tx. unfold spec_roa_canonical_string.
    rewrite Q.
    replace (Request.method (ROASigner.request s1))
      with (Request.method (ROASigner.request self))
      by (unfold s1; rewrite St; reflexivity).
    unfold s1 at 1 2 3 4 5. cbn [ROASigner.with_headers ROASigner._headers].
    unfold H. rewrite canonical_headers_ignore_other_headers by reflexivity.
    rewrite !dict_get_set. cbn. reflexivity. }
  destruct (ROASigner.signature accept_json s1 date) as [txt1 sg1].
  cbn [fst snd] in S1, T1. subst txt1 sg1.
  assert (E : dict_set "Authorization" auth H = H)
    by (unfold H; apply dict_set_twice).
  cbn [fst snd].
  change (ROASigner.credentials s1) with (ROASigner.credentials sg).
  change (ROASigner.signer s1) with (ROASigner.signer sg).
  change (ROASigner._headers s1) with H.
  fold auth. rewrite E. reflexivity.
Qed.

(** X19.  [params] of [ROASigner] returns the resolved URI when the request
    has no query parameter, without the ["?"] the URI may end with;
    otherwise the URI, a ["?"] unless the URI ends with one, and the
    form-encoding of the query parameters in the order of the mapping, none
    of which is ever dropped. *)
Theorem roa_params_shape (self : ROASigner.t) :
  ROASigner.params self
  = match Request._query_params (ROASigner.request self) with
    | [] =>
        if endswith_char "?" (ROASigner._uri self)
        then drop_last (ROASigner._uri self)
        else ROASigner._uri self
    | q =>
        (if endswith_char "?" (ROASigner._uri self)
         then ROASigner._uri self
         else ROASigner._uri self +:+ "?")
        +:+ urlencode q
    end.
Proof.
  unfold ROASigner.params. cbn [String.append].
  set (u := ROASigner._uri self).
  destruct (Request._query_params (ROASigner.request self)) as [|kv q] eqn:Eq.
  - change (urlencode []) with "". rewrite !append_empty_r.
    destruct (endswith_char "?" u) eqn:Eu; cbn [negb].
    + now rewrite Eu.
    + change "?" with (String "?"%char "").
      now rewrite endswith_char_snoc, Ascii.eqb_refl, drop_last_snoc.
  - destruct (urlencode_nonempty (kv :: q)) as (z & y & -> & Hy); [discriminate|].
    destruct (endswith_char "?" u); cbn [negb];
      rewrite <- append_assoc, endswith_char_after; auto; discriminate.
Qed.
End ComposerExtra.
